(** * DLpy: transpose and comparison operations, dropout layers, samplers
      and checkpoints

    A shallow embedding of [DLpy/ops/matrix.py], [DLpy/nn/base/dropout.py],
    [DLpy/data/samplers.py] and [DLpy/core/serialization.py].

    Python objects that the code mutates are threaded explicitly: every
    operation is a function from the state it can touch to a result (a value
    or a raised exception) and the state it leaves behind.  An exception
    does not roll the state back.  NumPy arrays are a shape and a row-major
    buffer; [float64] elements are Rocq's primitive binary64 floats. *)

From Stdlib Require Import ZArith Lia Floats.
From stdpp Require Import base option list sorting gmap strings pretty.

#[local] Set Warnings "-register-all".

(* ===================================================================== *)
(** ** Python results and the state monad of the embedding               *)
(* ===================================================================== *)

Module Py.

(** The exceptions the modelled code can raise, with their payload. *)
Inductive exn : Type :=
| ValueError (msg : string)
| AxisError (axis : Z) (ndim : nat)
| KeyError (key : string)
| AssertionError (msg : string)
| AttributeError (msg : string)
| FileNotFoundError (path : string).

Inductive result (A : Type) : Type :=
| Ok (a : A)
| Raise (e : exn).
Arguments Ok {A} a.
Arguments Raise {A} e.

Definition is_ok {A} (r : result A) : bool :=
  match r with Ok _ => true | Raise _ => false end.

(** A computation over the mutable state [S]. *)
Definition M (S A : Type) : Type := S -> result A * S.

Definition ret {S A} (a : A) : M S A := fun s => (Ok a, s).
Definition raise {S A} (e : exn) : M S A := fun s => (Raise e, s).
Definition bind {S A B} (m : M S A) (k : A -> M S B) : M S B :=
  fun s => match m s with
           | (Ok a, s') => k a s'
           | (Raise e, s') => (Raise e, s')
           end.
Definition get {S} : M S S := fun s => (Ok s, s).
Definition modify {S} (f : S -> S) : M S unit := fun s => (Ok tt, f s).
Definition lift {S A} (r : result A) : M S A := fun s => (r, s).

(** Bind on plain results, for code that touches no state. *)
Definition rbind {A B} (r : result A) (k : A -> result B) : result B :=
  match r with Ok a => k a | Raise e => Raise e end.

End Py.
Export Py.

Declare Scope py_scope.
Delimit Scope py_scope with py.
Notation "'let*' x := m 'in' k" := (Py.bind m (fun x => k))
  (at level 10, x pattern, m at level 100, k at level 200) : py_scope.
Notation "m ;;; k" := (Py.bind m (fun _ => k))
  (at level 100, k at level 200, right associativity) : py_scope.
Notation "'let?' x := r 'in' k" := (Py.rbind r (fun x => k))
  (at level 10, x pattern, r at level 100, k at level 200).

(* ===================================================================== *)
(** ** float64                                                           *)
(* ===================================================================== *)

Module F64.

#[global] Instance float_inhabited : Inhabited float := populate 0%float.

(** [bool.astype(np.float64)]. *)
Definition of_bool (b : bool) : float := if b then 1%float else 0%float.

(** IEEE equality with zero: true of [0.0] and of [-0.0] only. *)
Definition is_zero (x : float) : bool := PrimFloat.eqb x 0%float.

Definition is_finite (x : float) : bool :=
  match Prim2SF x with
  | S754_zero _ | S754_finite _ _ _ => true
  | S754_infinity _ | S754_nan => false
  end.

End F64.

(* ===================================================================== *)
(** ** NumPy: the array primitives the sources call                      *)
(* ===================================================================== *)

Module np.

Record ndarray (A : Type) : Type := mk_ndarray {
  shape : list nat;
  buffer : list A    (* the elements in row-major (C) order *)
}.
Arguments mk_ndarray {A} shape buffer.
Arguments shape {A} _.
Arguments buffer {A} _.

Definition ndim {A} (a : ndarray A) : nat := length (shape a).

(** [np.prod(shape)]: the number of elements of an array of that shape. *)
Definition size_of (sh : list nat) : nat := foldr Nat.mul 1 sh.

Definition wf {A} (a : ndarray A) : Prop :=
  length (buffer a) = size_of (shape a).

(** Row-major strides, counted in elements. *)
Fixpoint strides (sh : list nat) : list nat :=
  match sh with
  | [] => []
  | _ :: sh' => size_of sh' :: strides sh'
  end.

(** Offset of a multi-index under the given strides. *)
Definition offset (idx st : list nat) : nat :=
  sum_list (zip_with Nat.mul idx st).

(** [np.unravel_index(o, sh)]. *)
Fixpoint unravel_index (o : nat) (sh : list nat) : list nat :=
  match sh with
  | [] => []
  | _ :: sh' => (o / size_of sh') :: unravel_index (o mod size_of sh') sh'
  end.

(** A multi-index lies inside a shape. *)
Definition in_range (idx sh : list nat) : Prop :=
  Forall2 lt idx sh.

Section Elements.
Context {A : Type} `{Inhabited A}.

(** [a[idx]]. *)
Definition item (a : ndarray A) (idx : list nat) : A :=
  buffer a !!! offset idx (strides (shape a)).

(** The contents, in row-major order, of the view of buffer [buf] with
    shape [sh] and strides [st] ([np.lib.stride_tricks.as_strided]).
    Transposition and broadcasting are such views. *)
Definition as_strided (buf : list A) (sh st : list nat) : list A :=
  (fun o => buf !!! offset (unravel_index o sh) st) <$> seq 0 (size_of sh).

(** [check_and_adjust_axis]: a negative axis counts from the end. *)
Definition check_and_adjust_axis (axis : Z) (nd : nat) : result nat :=
  if ((axis <? - Z.of_nat nd) || (Z.of_nat nd <=? axis))%Z
  then Raise (AxisError axis nd)
  else Ok (Z.to_nat (if (axis <? 0)%Z then axis + Z.of_nat nd else axis)).

(** The loop of [PyArray_Transpose] over the requested axes:
    [reverse_permutation] starts at -1 everywhere and records, for each
    axis already used, the position that uses it. *)
Fixpoint transpose_permutation (nd : nat) (axes : list Z) (i : nat)
    (reverse_permutation : list Z) : result (list nat) :=
  match axes with
  | [] => Ok []
  | ax :: rest =>
      let? axis := check_and_adjust_axis ax nd in
      if decide (reverse_permutation !!! axis = (-1)%Z) then
        let? permutation :=
          transpose_permutation nd rest (S i)
            (<[axis := Z.of_nat i]> reverse_permutation) in
        Ok (axis :: permutation)
      else Raise (ValueError "repeated axis in transpose")
  end.

(** The view with the dimensions and strides of [a] taken in the order
    [permutation]. *)
Definition permute_axes (a : ndarray A) (permutation : list nat)
    : ndarray A :=
  let sh := (fun k => shape a !!! k) <$> permutation in
  let st := (fun k => strides (shape a) !!! k) <$> permutation in
  mk_ndarray sh (as_strided (buffer a) sh st).

(** [np.transpose(a, axes)]; [axes = None] reverses the axes. *)
Definition transpose (a : ndarray A) (axes : option (list Z))
    : result (ndarray A) :=
  let nd := ndim a in
  let? permutation :=
    match axes with
    | None => Ok (reverse (seq 0 nd))
    | Some axes =>
        if decide (length axes = nd)
        then transpose_permutation nd axes 0 (replicate nd (-1)%Z)
        else Raise (ValueError "axes don't match array")
    end in
  Ok (permute_axes a permutation).

(** Strides of the view of an array of shape [ash] broadcast to [sh]:
    shapes are aligned on the right, missing and length-1 dimensions
    are repeated with stride 0. *)
Fixpoint broadcast_strides_rev (ash st sh : list nat)
    : option (list nat) :=
  match sh with
  | [] => match ash with [] => Some [] | _ :: _ => None end
  | n :: sh' =>
      match ash, st with
      | d :: ash', s :: st' =>
          r ← broadcast_strides_rev ash' st' sh';
          if decide (d = n) then Some (s :: r)
          else if decide (d = 1) then Some (0 :: r)
          else None
      | _, _ =>
          r ← broadcast_strides_rev [] [] sh';
          Some (0 :: r)
      end
  end.

Definition broadcast_strides (ash sh : list nat) : option (list nat) :=
  reverse <$>
    broadcast_strides_rev (reverse ash) (reverse (strides ash)) (reverse sh).

(** [np.broadcast_to(a, sh)]. *)
Definition broadcast_to (a : ndarray A) (sh : list nat)
    : result (ndarray A) :=
  match broadcast_strides (shape a) sh with
  | Some st => Ok (mk_ndarray sh (as_strided (buffer a) sh st))
  | None =>
      Raise (ValueError
               "operands could not be broadcast together with remapped shapes")
  end.
End Elements.

(** The common shape of two operands of an elementwise operation. *)
Fixpoint broadcast_shapes_rev (s1 s2 : list nat) : option (list nat) :=
  match s1, s2 with
  | [], s | s, [] => Some s
  | a :: s1', b :: s2' =>
      r ← broadcast_shapes_rev s1' s2';
      if decide (a = b) then Some (a :: r)
      else if decide (a = 1) then Some (b :: r)
      else if decide (b = 1) then Some (a :: r)
      else None
  end.

Definition broadcast_shapes (s1 s2 : list nat) : option (list nat) :=
  reverse <$> broadcast_shapes_rev (reverse s1) (reverse s2).

(** A binary ufunc: broadcast both operands, apply [f] elementwise. *)
Definition ufunc2 {A B C} `{Inhabited A, Inhabited B}
    (f : A -> B -> C) (a : ndarray A) (b : ndarray B)
    : result (ndarray C) :=
  match broadcast_shapes (shape a) (shape b) with
  | None => Raise (ValueError "operands could not be broadcast together")
  | Some sh =>
      let? a' := broadcast_to a sh in
      let? b' := broadcast_to b sh in
      Ok (mk_ndarray sh (zip_with f (buffer a') (buffer b')))
  end.

(** An array combined with a Python scalar, and [astype]. *)
Definition map_array {A B} (f : A -> B) (a : ndarray A) : ndarray B :=
  mk_ndarray (shape a) (f <$> buffer a).

(** [np.argsort] of a one-dimensional integer sequence: the indices that
    sort it, equal keys keeping their order (the insertion sort NumPy
    uses on short inputs). *)
Fixpoint insert_key (p : Z * nat) (l : list (Z * nat)) : list (Z * nat) :=
  match l with
  | [] => [p]
  | q :: l' =>
      if (p.1 <=? q.1)%Z then p :: q :: l' else q :: insert_key p l'
  end.

Definition argsort (keys : list Z) : list nat :=
  snd <$> foldr insert_key [] (zip keys (seq 0 (length keys))).

(** float64 arithmetic and comparisons, elementwise. *)
Definition multiply := ufunc2 PrimFloat.mul.
Definition add := ufunc2 PrimFloat.add.
Definition greater := ufunc2 (fun x y => PrimFloat.ltb y x).
Definition greater_equal := ufunc2 (fun x y => PrimFloat.leb y x).
Definition less := ufunc2 PrimFloat.ltb.
Definition less_equal := ufunc2 PrimFloat.leb.
Definition equal := ufunc2 PrimFloat.eqb.
Definition not_equal := ufunc2 (fun x y => negb (PrimFloat.eqb x y)).

End np.

(* ===================================================================== *)
(** ** DLpy.core: tensors and contexts                                   *)
(* ===================================================================== *)

Module core.

(** Modelled from the spec: the [Tensor] class of [DLpy/core], which is
    not among the sources.  A tensor is an array value with an optional
    gradient, a [requires_grad] flag and a stable identity ([py_id],
    what Python's [id(x)] returns, the key of gradient maps).  The
    [grad_fn] edge plays no part in the operations modelled here and is
    left out. *)
Record Tensor (A : Type) : Type := mk_Tensor {
  data : np.ndarray A;
  grad : option (np.ndarray float);
  requires_grad : bool;
  py_id : Z
}.
Arguments mk_Tensor {A} data grad requires_grad py_id.
Arguments data {A} _.
Arguments grad {A} _.
Arguments requires_grad {A} _.
Arguments py_id {A} _.

Definition set_data {A} (x : Tensor A) (d : np.ndarray A) : Tensor A :=
  mk_Tensor d (grad x) (requires_grad x) (py_id x).

(** [x.shape]. *)
Definition shape {A} (x : Tensor A) : list nat := np.shape (data x).

(** States in which new objects can be allocated: each object gets the
    next unused identity. *)
Class Alloc (S : Type) : Type := {
  next_id : S -> Z;
  set_next_id : Z -> S -> S
}.

(** Modelled from the spec: the constructor [Tensor(data, requires_grad=...)].
    The sources call it with and without the keyword; the value it takes
    when the keyword is absent is the parameter [requires_grad_default]. *)
Definition Tensor_new {S} `{Alloc S} {A} (requires_grad_default : bool)
    (d : np.ndarray A) (requires_grad : option bool) : M S (Tensor A) :=
  fun s =>
    (Ok (mk_Tensor d None (default requires_grad_default requires_grad)
           (next_id s)),
     set_next_id (next_id s + 1)%Z s).

(** The non-tensor values the modelled operations save: an optional
    tuple of integers (the [axes] of a transposition). *)
Definition argument : Type := option (list Z).

(** Modelled from the spec: the [Context] class of [DLpy/core/context],
    which is not among the sources: an ordered sequence of saved tensors
    and a mapping from parameter names to saved values. *)
Record Context (A : Type) : Type := mk_Context {
  saved_tensors : list (Tensor A);
  saved_arguments : gmap string argument
}.
Arguments mk_Context {A} saved_tensors saved_arguments.
Arguments saved_tensors {A} _.
Arguments saved_arguments {A} _.

(** Modelled from the spec: [ctx.save_for_backward] records the
    tensors it is given, [ctx.save_arguments] the named values. *)
Definition save_for_backward {A} (tensors : list (Tensor A))
    (ctx : Context A) : Context A :=
  mk_Context tensors (saved_arguments ctx).

Definition save_arguments {A} (kwparams : list (string * argument))
    (ctx : Context A) : Context A :=
  mk_Context (saved_tensors ctx)
    (list_to_map kwparams ∪ saved_arguments ctx).

(** Modelled from the spec: the [Module] base class of [DLpy/core], which
    is not among the sources: the training/evaluation flag and the
    ordered registries of named parameters, buffers and submodules. *)
Inductive Module : Type := mk_Module {
  training : bool;
  _parameters : list (string * option (Tensor float));
  _buffers : list (string * option (Tensor float));
  _modules : list (string * Module)
}.

Definition qualify {V} (prefix : string) (entry : string * V) : string * V :=
  (prefix +:+ "." +:+ entry.1, entry.2).

(** Modelled from the spec: [Module.named_parameters()] walks the tree in
    registration order, a module's own parameters first, the names of a
    submodule's parameters prefixed by the submodule's name. *)
Fixpoint named_parameters (m : Module)
    : list (string * option (Tensor float)) :=
  _parameters m ++
  (fix children (l : list (string * Module)) :=
     match l with
     | [] => []
     | (name, sub) :: l' =>
         (qualify name <$> named_parameters sub) ++ children l'
     end) (_modules m).

(** Every buffer of the tree, named like the parameters (what the spec
    calls the model's buffers; no source function computes it). *)
Fixpoint named_buffers (m : Module)
    : list (string * option (Tensor float)) :=
  _buffers m ++
  (fix children (l : list (string * Module)) :=
     match l with
     | [] => []
     | (name, sub) :: l' =>
         (qualify name <$> named_buffers sub) ++ children l'
     end) (_modules m).

End core.

(* ===================================================================== *)
(** ** DLpy/ops/matrix.py                                                *)
(* ===================================================================== *)

Module matrix.
Import core.

(** What a forward call can change: the context it is handed and the
    allocator of new tensors. *)
Record call_state (A : Type) : Type := mk_call_state {
  ctx : Context A;
  fresh : Z
}.
Arguments mk_call_state {A} ctx fresh.
Arguments ctx {A} _.
Arguments fresh {A} _.

#[global] Instance call_state_alloc A : Alloc (call_state A) := {|
  next_id := fresh;
  set_next_id := fun n s => mk_call_state (ctx s) n
|}.

Definition with_ctx {A} (f : Context A -> Context A)
    : M (call_state A) unit :=
  Py.modify (fun s => mk_call_state (f (ctx s)) (fresh s)).

Local Open Scope py_scope.

Section Operations.
Variable requires_grad_default : bool.

(** [if not isinstance(x, Tensor): x = Tensor(x)]. *)
Definition as_tensor {A} (x : Tensor A + np.ndarray A)
    : M (call_state A) (Tensor A) :=
  match x with
  | inl t => Py.ret t
  | inr a => Tensor_new requires_grad_default a None
  end.

Section Transpose.
Context {A : Type} `{Inhabited A}.

Definition Transpose_forward (x : Tensor A + np.ndarray A)
    (axes : option (list Z)) : M (call_state A) (Tensor A) :=
  let* x := as_tensor x in
  with_ctx (save_for_backward [x]) ;;;
  with_ctx (save_arguments [("axes", axes)]) ;;;
  match axes with
  | None =>
      let* t := Py.lift (np.transpose (data x) None) in
      Tensor_new requires_grad_default t None
  | Some axes =>
      let* t := Py.lift (np.transpose (data x) (Some axes)) in
      Tensor_new requires_grad_default t None
  end.

(** The state of [backward] is the gradient map it is handed. *)
Definition Transpose_backward (ctx : Context A)
    (grad_output : np.ndarray A) : M (gmap Z (np.ndarray A)) unit :=
  match saved_tensors ctx with
  | [x] =>
      match saved_arguments ctx !! "axes" with
      | None => Py.raise (KeyError "axes")
      | Some axes =>
          if requires_grad x then
            match axes with
            | None =>
                let* g := Py.lift (np.transpose grad_output None) in
                Py.modify (<[py_id x := g]>)
            | Some axes =>
                let inverse_axes := np.argsort axes in
                let* g := Py.lift (np.transpose grad_output
                            (Some (Z.of_nat <$> inverse_axes))) in
                Py.modify (<[py_id x := g]>)
            end
          else Py.ret tt
      end
  | [] => Py.raise (ValueError "not enough values to unpack (expected 1, got 0)")
  | _ :: _ :: _ => Py.raise (ValueError "too many values to unpack (expected 1)")
  end.
End Transpose.

(** [Compare._compare]: both operands become tensors, the result wraps
    the boolean array of the comparison. *)
Definition Compare__compare
    (op : np.ndarray float -> np.ndarray float -> result (np.ndarray bool))
    (x1 x2 : Tensor float + np.ndarray float)
    : M (call_state float) (Tensor bool) :=
  let* x1 := as_tensor x1 in
  let* x2 := as_tensor x2 in
  let* r := Py.lift (op (data x1) (data x2)) in
  Tensor_new requires_grad_default r None.

(** [Compare.backward]: the body is a docstring only. *)
Definition Compare_backward (ctx : Context float)
    (grad_output : np.ndarray float)
    : M (gmap Z (np.ndarray float)) unit :=
  Py.ret tt.

Definition Greater_forward := Compare__compare np.greater.
Definition GreaterEqual_forward := Compare__compare np.greater_equal.
Definition Less_forward := Compare__compare np.less.
Definition LessEqual_forward := Compare__compare np.less_equal.
Definition Equal_forward := Compare__compare np.equal.
Definition NotEqual_forward := Compare__compare np.not_equal.

(** The six subclasses of [Compare]; each inherits [Compare.backward]. *)
Inductive comparison : Type :=
| Greater | GreaterEqual | Less | LessEqual | Equal | NotEqual.

Definition forward_of (c : comparison) :=
  match c with
  | Greater => Greater_forward
  | GreaterEqual => GreaterEqual_forward
  | Less => Less_forward
  | LessEqual => LessEqual_forward
  | Equal => Equal_forward
  | NotEqual => NotEqual_forward
  end.

Definition backward_of (c : comparison) := Compare_backward.
End Operations.

End matrix.

(* ===================================================================== *)
(** ** numpy.random                                                      *)
(* ===================================================================== *)

Module random.

(** The global generator: the sequence of draws it will deliver, read
    either as a double in [0, 1) or as an integer of a closed interval,
    and the number of draws consumed so far. *)
Record RandomState : Type := mk_RandomState {
  random_sample : nat -> float;
  random_interval : nat -> nat -> nat;
  position : nat
}.

Definition advance (k : nat) (g : RandomState) : RandomState :=
  mk_RandomState (random_sample g) (random_interval g) (position g + k).

Class Random (S : Type) : Type := {
  generator : S -> RandomState;
  set_generator : RandomState -> S -> S
}.

(** [np.random.rand(d0, ..., dn)]: an array of that shape filled with
    successive draws. *)
Definition rand {S} `{Random S} (sh : list nat) : M S (np.ndarray float) :=
  fun s =>
    let g := generator s in
    let n := np.size_of sh in
    (Ok (np.mk_ndarray sh (random_sample g <$> seq (position g) n)),
     set_generator (advance n g) s).

(** [np.random.rand()] with no argument: one draw, returned as a Python
    float rather than as an array. *)
Definition rand_float {S} `{Random S} : M S float :=
  fun s =>
    let g := generator s in
    (Ok (random_sample g (position g)), set_generator (advance 1 g) s).

(** One integer drawn from [0, max]. *)
Definition interval {S} `{Random S} (max : nat) : M S nat :=
  fun s =>
    let g := generator s in
    (Ok (random_interval g (position g) max mod (max + 1)),
     set_generator (advance 1 g) s).

Definition swap (x : list nat) (i j : nat) : list nat :=
  <[i := x !!! j]> (<[j := x !!! i]> x).

Local Open Scope py_scope.

(** [shuffle]: for [i = n-1] down to [1], exchange [x[i]] with [x[j]]
    for a [j] drawn from [0, i]. *)
Fixpoint shuffle_from {S} `{Random S} (i : nat) (x : list nat)
    : M S (list nat) :=
  match i with
  | 0 => Py.ret x
  | S i' =>
      let* j := interval i in
      shuffle_from i' (swap x i j)
  end.

(** [np.random.permutation(n)]: [arange(n)], shuffled. *)
Definition permutation {S} `{Random S} (n : nat) : M S (list nat) :=
  shuffle_from (n - 1) (seq 0 n).

End random.

(* ===================================================================== *)
(** ** DLpy/nn/base/dropout.py                                           *)
(* ===================================================================== *)

Module dropout.
Import core.

(** What a forward call can change: the tensor object passed as [x]
    (in-place operation writes into it), the layer's [mask] attribute
    ([Dropout2d] only), the random generator and the allocator. *)
Record world : Type := mk_world {
  x_object : Tensor float;
  self_mask : option (np.ndarray float);
  rng : random.RandomState;
  fresh : Z
}.

#[global] Instance world_alloc : Alloc world := {|
  next_id := fresh;
  set_next_id := fun n w => mk_world (x_object w) (self_mask w) (rng w) n
|}.

#[global] Instance world_random : random.Random world := {|
  random.generator := rng;
  random.set_generator :=
    fun g w => mk_world (x_object w) (self_mask w) g (fresh w)
|}.

Definition read_x : M world (Tensor float) :=
  fun w => (Ok (x_object w), w).
Definition write_x_data (d : np.ndarray float) : M world unit :=
  Py.modify (fun w =>
    mk_world (set_data (x_object w) d) (self_mask w) (rng w) (fresh w)).
Definition write_mask (m : np.ndarray float) : M world unit :=
  Py.modify (fun w => mk_world (x_object w) (Some m) (rng w) (fresh w)).

Record Dropout : Type := mk_Dropout {
  base : Module;
  p : float;
  inplace : bool
}.

(** [Dropout.__init__] and [Dropout2d.__init__]; [super_init] is the
    state [Module.__init__] leaves.  The error message ends with the
    rejected value, which the model leaves out.  [Dropout2d.__init__] also
    sets [self.mask = None]: the [self_mask] of the world. *)
Definition Dropout_init (super_init : Module) (p : float) (inplace : bool)
    : result Dropout :=
  if (PrimFloat.ltb p 0 || PrimFloat.ltb 1 p)%bool
  then Raise (ValueError "dropout probability has to be between 0 and 1")
  else Ok (mk_Dropout super_init p inplace).

(** [1.0 / (1.0 - self.p) if self.p != 1.0 else 0.0]. *)
Definition scale_of (p : float) : float :=
  if negb (PrimFloat.eqb p 1) then (1 / (1 - p))%float else 0%float.

(** [(draws > p).astype(np.float64)]. *)
Definition keep_mask (p : float) (draws : np.ndarray float)
    : np.ndarray float :=
  np.map_array F64.of_bool (np.map_array (fun u => PrimFloat.ltb p u) draws).

(** [array * scale] for a Python float [scale]. *)
Definition times (scale : float) (a : np.ndarray float) : np.ndarray float :=
  np.map_array (fun v => (v * scale)%float) a.

Local Open Scope py_scope.

Section Forward.
Variable requires_grad_default : bool.

(** [np.random.rand] gets the entries of [x.shape] as its arguments, so
    it is called with no argument for a tensor of no dimension: the draw
    is then a Python float, its comparison with [p] a Python bool, and a
    bool has no [astype]. *)
Definition Dropout_forward (self : Dropout) : M world (Tensor float) :=
  let* x := read_x in
  if training (base self) then
    match shape x with
    | [] =>
        let* draw := random.rand_float in
        Py.raise (AttributeError "'bool' object has no attribute 'astype'")
    | _ :: _ =>
        let* draws := random.rand (shape x) in
        let mask := keep_mask (p self) draws in
        let scale := scale_of (p self) in
        let mask := times scale mask in
        if inplace self then
          let* d := Py.lift (np.multiply (data x) mask) in
          write_x_data d ;;;
          read_x
        else
          let* d := Py.lift (np.multiply (data x) mask) in
          Tensor_new requires_grad_default d (Some (requires_grad x))
    end
  else Py.ret x.

Definition Dropout2d_forward (self : Dropout) : M world (Tensor float) :=
  let* x := read_x in
  if training (base self) then
    if decide (length (shape x) = 4) then
      let* draws :=
        random.rand [shape x !!! 0; shape x !!! 1; 1; 1] in
      let mask := keep_mask (p self) draws in
      let* m := Py.lift (np.broadcast_to mask (shape x)) in
      write_mask m ;;;
      let scale := scale_of (p self) in
      if inplace self then
        let* d := Py.lift (np.multiply (data x) (times scale m)) in
        write_x_data d ;;;
        read_x
      else
        let* d := Py.lift (np.multiply (data x) m) in
        Tensor_new requires_grad_default (times scale d)
          (Some (requires_grad x))
    else
      Py.raise (AssertionError
        ("expected 4D input, got " +:+ pretty (length (shape x))
         +:+ "D input"))
  else Py.ret x.
End Forward.

End dropout.

(* ===================================================================== *)
(** ** DLpy/data/samplers.py                                             *)
(* ===================================================================== *)

Module samplers.

(** A [Sized] object: all the samplers use of it is [len]. *)
Record Sized : Type := mk_Sized { len : nat }.

Record Sampler : Type := mk_Sampler { data_source : option Sized }.

(** [Sampler.__init__]. *)
Definition Sampler_init (data_source : option Sized) : result Sampler :=
  Ok (mk_Sampler data_source).

#[global] Instance generator_random : random.Random random.RandomState := {|
  random.generator := fun g => g;
  random.set_generator := fun g _ => g
|}.

Local Open Scope py_scope.

(** [__iter__] returns an iterator; the model gives the indices it will
    yield. *)
Definition SequentialSampler_iter (self : Sampler)
    : M random.RandomState (list nat) :=
  match data_source self with
  | None => Py.raise (ValueError "data_source cannot be None")
  | Some ds => Py.ret (seq 0 (len ds))
  end.

Definition SequentialSampler_len (self : Sampler)
    : M random.RandomState nat :=
  match data_source self with
  | None => Py.raise (ValueError "data_source cannot be None")
  | Some ds => Py.ret (len ds)
  end.

Definition RandomSampler_iter (self : Sampler)
    : M random.RandomState (list nat) :=
  match data_source self with
  | None => Py.raise (ValueError "data_source cannot be None")
  | Some ds =>
      let* indices := random.permutation (len ds) in
      Py.ret indices
  end.

Definition RandomSampler_len (self : Sampler)
    : M random.RandomState nat :=
  match data_source self with
  | None => Py.raise (ValueError "data_source cannot be None")
  | Some ds => Py.ret (len ds)
  end.

End samplers.

(* ===================================================================== *)
(** ** DLpy/core/serialization.py                                        *)
(* ===================================================================== *)

Module serialization.
Import core.

(** Python values of unconstrained type ([Any]). *)
Inductive pyobj : Type :=
| PyNone
| PyBool (b : bool)
| PyInt (z : Z)
| PyFloat (f : float)
| PyStr (s : string)
| PyList (l : list pyobj).

Definition state_dict : Type := gmap string (np.ndarray float).

(** [ModelSaver.get_state_dict]: the arrays of the parameters that
    [named_parameters] yields, then those of the model's own [_buffers];
    a later assignment to the same key replaces the earlier one. *)
Definition assign_data (sd : state_dict)
    (entry : string * option (Tensor float)) : state_dict :=
  match entry.2 with
  | Some t => <[entry.1 := data t]> sd
  | None => sd
  end.

Definition get_state_dict (model : Module) : state_dict :=
  let state_dict := foldl assign_data ∅ (named_parameters model) in
  foldl assign_data state_dict (_buffers model).

Section Checkpoint.
(** The optimizer is any object with [state_dict] and [load_state_dict]
    methods, and [Module.load_state_dict] is not among the sources:
    they are parameters of the model. *)
Context {Optimizer OptState : Type}.
Variable optimizer_state_dict : Optimizer -> OptState.
Variable optimizer_load_state_dict :
  Optimizer -> OptState -> result Optimizer.
Variable truthy : OptState -> bool.
Variable Module_load_state_dict : Module -> state_dict -> result Module.

(** The dictionary [save_checkpoint] pickles. *)
Record checkpoint : Type := mk_checkpoint {
  model_state_dict : state_dict;
  optimizer_state_dict_entry : option OptState;
  epoch : option Z;
  loss : option float;
  additional_data : gmap string pyobj
}.

(** The dictionary [load_checkpoint] returns. *)
Record restored : Type := mk_restored {
  restored_epoch : option Z;
  restored_loss : option float;
  restored_additional_data : gmap string pyobj
}.

(** What a file written by [pickle.dump] holds: the pickled object.
    [pickle.load] gives back an equal object. *)
Inductive pickled : Type :=
| PickledCheckpoint (c : checkpoint)
| PickledOther (o : pyobj).

(** The state: the files, and the live model and optimizer objects a
    call is handed ([load_state_dict] overwrites them in place). *)
Record world : Type := mk_world {
  files : gmap string pickled;
  model : Module;
  optimizer : option Optimizer
}.

Local Open Scope py_scope.

Definition save_checkpoint (path : string)
    (epoch : option Z) (loss : option float)
    (additional_data : option (gmap string pyobj)) : M world unit :=
  fun w =>
    let checkpoint :=
      mk_checkpoint
        (get_state_dict (model w))
        (match optimizer w with
         | Some o => Some (optimizer_state_dict o)
         | None => None
         end)
        epoch loss
        (match additional_data with
         | Some d => if decide (d = ∅) then ∅ else d
         | None => ∅
         end) in
    (Ok tt,
     mk_world (<[path := PickledCheckpoint checkpoint]> (files w))
       (model w) (optimizer w)).

Definition pickle_load (path : string) : M world checkpoint :=
  fun w =>
    match files w !! path with
    | None => (Raise (FileNotFoundError path), w)
    | Some (PickledCheckpoint c) => (Ok c, w)
    | Some (PickledOther _) => (Raise (KeyError "model_state_dict"), w)
    end.

Definition model_load_state_dict (sd : state_dict) : M world unit :=
  fun w =>
    match Module_load_state_dict (model w) sd with
    | Ok m' => (Ok tt, mk_world (files w) m' (optimizer w))
    | Raise e => (Raise e, w)
    end.

Definition optimizer_load (sd : OptState) : M world unit :=
  fun w =>
    match optimizer w with
    | None => (Ok tt, w)
    | Some o =>
        match optimizer_load_state_dict o sd with
        | Ok o' => (Ok tt, mk_world (files w) (model w) (Some o'))
        | Raise e => (Raise e, w)
        end
    end.

Definition load_checkpoint (path : string) : M world restored :=
  let* checkpoint := pickle_load path in
  model_load_state_dict (model_state_dict checkpoint) ;;;
  let* w := Py.get in
  match optimizer w, optimizer_state_dict_entry checkpoint with
  | Some _, Some sd =>
      if truthy sd then optimizer_load sd else Py.ret tt
  | _, _ => Py.ret tt
  end ;;;
  Py.ret (mk_restored (epoch checkpoint) (loss checkpoint)
            (additional_data checkpoint)).
End Checkpoint.

End serialization.

(* ===================================================================== *)
(** ** Vocabulary of the statements about [DLpy/ops/matrix.py]           *)
(* ===================================================================== *)

Module matrix_terms.
Import np core matrix.

(** The axis a possibly negative axis number names. *)
Definition normalize_axis (nd : nat) (axis : Z) : nat :=
  Z.to_nat (if (axis <? 0)%Z then axis + Z.of_nat nd else axis).

Definition axis_in_bounds (nd : nat) (axis : Z) : Prop :=
  (- Z.of_nat nd <= axis < Z.of_nat nd)%Z.

(** [axes] is a permutation of the axes of an [nd]-dimensional array
    (a bijection over them): every entry names an axis, a negative entry
    counting from the end, and the axes named are 0, ..., nd-1 in some
    order. *)
Definition valid_axes (nd : nat) (axes : list Z) : Prop :=
  Forall (axis_in_bounds nd) axes /\
  normalize_axis nd <$> axes ≡ₚ seq 0 nd.

(** The errors NumPy reports for a rejected [axes] argument. *)
Definition describes_invalid_axes (nd : nat) (axes : list Z) (e : exn)
    : Prop :=
  e = ValueError "axes don't match array" \/
  (exists axis, axis ∈ axes /\ ~ axis_in_bounds nd axis /\
                e = AxisError axis nd) \/
  e = ValueError "repeated axis in transpose".

(** The order [np.argsort] sorts by: the keys, positions ignored. *)
Definition key_le (p q : Z * nat) : Prop := (p.1 <= q.1)%Z.

(** The inverse of the permutation [axes] names: entry [j] is the position
    at which [axes] names axis [j]. *)
Definition inverse_permutation (nd : nat) (axes : list Z) : list Z :=
  (fun j =>
     Z.of_nat (default 0
       (fst <$> list_find (fun a => a = j) (normalize_axis nd <$> axes))))
  <$> seq 0 nd.

(** No axes, or axes written with the axis numbers 0, ..., nd-1. *)
Definition canonical_axes (nd : nat) (axes : option (list Z)) : Prop :=
  match axes with
  | None => True
  | Some ax =>
      length ax = nd /\ ax ≡ₚ Z.of_nat <$> seq 0 (length ax)
  end.

(** The array a forward call works on. *)
Definition input_array {A} (x : Tensor A + ndarray A) : ndarray A :=
  match x with inl t => data t | inr a => a end.

(** The gradient array [Transpose.backward] computes for its input. *)
Definition contribution {A} `{Inhabited A} (axes : option (list Z))
    (grad_output : ndarray A) : result (ndarray A) :=
  match axes with
  | None => transpose grad_output None
  | Some axes =>
      transpose grad_output (Some (Z.of_nat <$> argsort axes))
  end.

(** What the entry of [key] would be if a contribution were added to the
    entry already present. *)
Definition accumulated (grad_dict : gmap Z (ndarray float)) (key : Z)
    (c : ndarray float) : result (ndarray float) :=
  match grad_dict !! key with
  | Some prior => np.add prior c
  | None => Ok c
  end.

(** A forward call of one of the Functions of the file. *)
Inductive Function_call : Type :=
| Transpose_call (x : Tensor float + ndarray float) (axes : option (list Z))
| Compare_call (c : comparison) (x1 x2 : Tensor float + ndarray float).

Definition flag_of {A} (r : result (Tensor A)) : result bool :=
  match r with Ok out => Ok (requires_grad out) | Raise e => Raise e end.

(** The [requires_grad] flag of the tensor a forward call returns. *)
Definition output_requires_grad (requires_grad_default : bool)
    (call : Function_call) (s : call_state float) : result bool :=
  match call with
  | Transpose_call x axes =>
      flag_of (Transpose_forward requires_grad_default x axes s).1
  | Compare_call c x1 x2 =>
      flag_of (forward_of requires_grad_default c x1 x2 s).1
  end.

Definition input_flag {A} (x : Tensor A + ndarray A) : bool :=
  match x with inl t => requires_grad t | inr _ => false end.

(** Whether at least one input tensor of the call requires a gradient. *)
Definition any_input_requires_grad (call : Function_call) : bool :=
  match call with
  | Transpose_call x _ => input_flag x
  | Compare_call _ x1 x2 => input_flag x1 || input_flag x2
  end.

(** The tensor a forward call returned, or nothing if it raised. *)
Definition returned_by {A} (r : result (Tensor A) * call_state A)
    : option (Tensor A) :=
  match r.1 with Ok out => Some out | Raise _ => None end.

(** Sample values. *)
Definition scalar_tensor (v : float) (flag : bool) (key : Z) : Tensor float :=
  mk_Tensor (mk_ndarray [1; 1] [v]) None flag key.
Definition empty_state : call_state float :=
  mk_call_state (mk_Context [] ∅) 100.
Definition saved (x : Tensor float) (axes : option (list Z))
    : Context float :=
  mk_Context [x] {[ "axes" := axes ]}.

(** A test that tells apart entries whose first element differs. *)
Definition first_element_is (v : float) (entry : option (ndarray float))
    : bool :=
  match entry with
  | Some a => match buffer a with e :: _ => PrimFloat.eqb e v | [] => false end
  | None => false
  end.

End matrix_terms.

(* ===================================================================== *)
(** ** Vocabulary of the statements about [DLpy/nn/base/dropout.py]      *)
(* ===================================================================== *)

Module dropout_terms.
Import np core dropout.

(** The [i]-th draw a forward call started in [w] takes from the generator. *)
Definition draw (w : world) (i : nat) : float :=
  random.random_sample (rng w) (random.position (rng w) + i).

(** The tensor a call returned, or nothing if it raised. *)
Definition returned {A} (r : result (Tensor A) * world) : option (Tensor A) :=
  match r.1 with Ok out => Some out | Raise _ => None end.

Definition returned_elements (r : result (Tensor float) * world)
    : option (list float) :=
  (fun out => buffer (data out)) <$> returned r.

(** Sample values: a generator whose draws are all [u], a layer, a world
    whose argument has the given shape and elements. *)
Definition constant_draws (u : float) : random.RandomState :=
  random.mk_RandomState (fun _ => u) (fun _ _ => 0) 0.

Definition layer (training : bool) (p : float) (inplace : bool) : Dropout :=
  mk_Dropout (mk_Module training [] [] []) p inplace.

Definition world_of (sh : list nat) (elements : list float) (u : float)
    : world :=
  mk_world (mk_Tensor (mk_ndarray sh elements) None true 7) None
    (constant_draws u) 100.

End dropout_terms.

(* ===================================================================== *)
(** ** Vocabulary of the statements about [DLpy/core/serialization.py]   *)
(* ===================================================================== *)

Module serialization_terms.
Import np core serialization.

(** Modelled from the spec: [Module.load_state_dict], which is not among
    the sources.  For each entry of the state dict it locates the leaf of
    that name and overwrites its array, raising on a shape mismatch; a
    leaf with no entry keeps its array. *)
Definition load_entry (prefix : string) (sd : state_dict)
    (entry : string * option (Tensor float))
    : result (string * option (Tensor float)) :=
  match entry.2 with
  | Some t =>
      match sd !! (prefix +:+ entry.1) with
      | Some a =>
          if decide (np.shape a = np.shape (data t))
          then Ok (entry.1, Some (set_data t a))
          else Raise (ValueError "shape mismatch")
      | None => Ok entry
      end
  | None => Ok entry
  end.

Fixpoint load_entries (prefix : string) (sd : state_dict)
    (l : list (string * option (Tensor float)))
    : result (list (string * option (Tensor float))) :=
  match l with
  | [] => Ok []
  | entry :: l' =>
      let? entry' := load_entry prefix sd entry in
      let? rest := load_entries prefix sd l' in
      Ok (entry' :: rest)
  end.

Fixpoint load_state_dict_from (prefix : string) (sd : state_dict)
    (m : Module) : result Module :=
  let? parameters := load_entries prefix sd (_parameters m) in
  let? buffers := load_entries prefix sd (_buffers m) in
  let? modules :=
    (fix children (l : list (string * Module)) :=
       match l with
       | [] => Ok []
       | (name, sub) :: l' =>
           let? sub' :=
             load_state_dict_from (prefix +:+ name +:+ ".") sd sub in
           let? rest := children l' in
           Ok ((name, sub') :: rest)
       end) (_modules m) in
  Ok (mk_Module (training m) parameters buffers modules).

Definition Module_load_state_dict (m : Module) (sd : state_dict)
    : result Module :=
  load_state_dict_from "" sd m.

Section Scenario.
Context {Optimizer OptState : Type}.
Variable optimizer_state_dict : Optimizer -> OptState.
Variable optimizer_load_state_dict : Optimizer -> OptState -> result Optimizer.
Variable truthy : OptState -> bool.
Variable load_state_dict : Module -> state_dict -> result Module.

(** [save_checkpoint] of the model [saved], then [load_checkpoint] of the
    same path into the live model [live] (and the live optimizer, if
    any). *)
Definition save_then_load (path : string) (saved live : Module)
    (saved_optimizer live_optimizer : option Optimizer)
    (epoch : option Z) (loss : option float)
    (additional_data : option (gmap string pyobj))
    (files : gmap string (@pickled OptState))
    : result restored * @world Optimizer OptState :=
  let after_save :=
    (save_checkpoint optimizer_state_dict path epoch loss additional_data
       (mk_world files saved saved_optimizer)).2 in
  load_checkpoint optimizer_load_state_dict truthy load_state_dict path
    (mk_world (serialization.files after_save) live live_optimizer).

End Scenario.

(** Sample values: a model whose one submodule ["bn"] holds a parameter
    ["weight"] and a buffer ["running_mean"]. *)
Definition vector (v : float) (key : Z) : Tensor float :=
  mk_Tensor (mk_ndarray [1] [v]) None false key.

Definition batch_norm (weight running_mean : float) : Module :=
  mk_Module true [("weight", Some (vector weight 1))]
    [("running_mean", Some (vector running_mean 2))] [].

Definition net (weight running_mean : float) : Module :=
  mk_Module true [] [] [("bn", batch_norm weight running_mean)].

(** A test that tells apart buffer lists whose first array differs. *)
Definition first_buffer_is (v : float)
    (l : list (string * option (Tensor float))) : bool :=
  match l with
  | (_, Some t) :: _ =>
      match buffer (data t) with e :: _ => PrimFloat.eqb e v | [] => false end
  | _ => false
  end.

(** An optimizer with no state to speak of. *)
Definition no_optimizer_state (o : unit) : unit := o.
Definition no_optimizer_load (o : unit) (sd : unit) : result unit := Ok o.

End serialization_terms.

(* ===================================================================== *)
(** * Further vocabulary                                                 *)
(* ===================================================================== *)

Module samplers_terms.
Import samplers.

(** The indices an iteration request yields, or nothing if it raised. *)
Definition yielded (r : result (list nat) * random.RandomState)
    : option (list nat) :=
  match r.1 with Ok l => Some l | Raise _ => None end.

End samplers_terms.

Module dropout_more_terms.
Import np core dropout dropout_terms.

(** Whether a float is a NaN. *)
Definition is_nan (x : float) : bool :=
  match Prim2SF x with S754_nan => true | _ => false end.

(** The multiplier [Dropout.forward] applies to element [i]. *)
Definition multiplier (p : float) (w : world) (i : nat) : float :=
  (F64.of_bool (PrimFloat.ltb p (draw w i)) * scale_of p)%float.

(** The array [Dropout.forward] computes in training mode. *)
Definition dropped (p : float) (w : world) : ndarray float :=
  let x := data (x_object w) in
  mk_ndarray (np.shape x)
    (zip_with PrimFloat.mul (buffer x)
       (multiplier p w <$> seq 0 (size_of (np.shape x)))).

End dropout_more_terms.

Module matrix_more_terms.
Import np core matrix matrix_terms.

(** The order in which [np.transpose] takes the axes of an array of [nd]
    dimensions: reversed when no axes are given. *)
Definition axes_order (nd : nat) (axes : option (list Z)) : list nat :=
  match axes with
  | None => reverse (seq 0 nd)
  | Some ax => normalize_axis nd <$> ax
  end.

(** No axes, or a permutation of the axes of an [nd]-dimensional array. *)
Definition accepted_axes (nd : nat) (axes : option (list Z)) : Prop :=
  match axes with
  | None => True
  | Some ax => valid_axes nd ax
  end.

(** The tensor a forward call works on: its argument, or the tensor it
    creates around the array it was given. *)
Definition input_tensor {A} (requires_grad_default : bool)
    (x : Tensor A + ndarray A) (s : call_state A) : Tensor A :=
  match x with
  | inl t => t
  | inr a => mk_Tensor a None requires_grad_default (fresh s)
  end.

(** How many tensors a call creates for an operand. *)
Definition wrapped {A} (x : Tensor A + ndarray A) : Z :=
  match x with inl _ => 0 | inr _ => 1 end.

(** The context [Transpose.forward] leaves. *)
Definition forward_ctx {A} (xt : Tensor A) (axes : option (list Z))
    (c : Context A) : Context A :=
  mk_Context [xt] ({[ "axes" := axes ]} ∪ saved_arguments c).

(** The comparison each operation makes of a pair of elements. *)
Definition compares (c : comparison) (u v : float) : bool :=
  match c with
  | Greater => PrimFloat.ltb v u
  | GreaterEqual => PrimFloat.leb v u
  | Less => PrimFloat.ltb u v
  | LessEqual => PrimFloat.leb u v
  | Equal => PrimFloat.eqb u v
  | NotEqual => negb (PrimFloat.eqb u v)
  end.

(** Sample values. *)
Definition matrix_2x3 : ndarray float :=
  mk_ndarray [2; 3] [1; 2; 3; 4; 5; 6]%float.
Definition tensor_2x3 (flag : bool) : Tensor float :=
  mk_Tensor matrix_2x3 None flag 7.

End matrix_more_terms.

Module serialization_more_terms.
Import np core serialization.

(** One step of the search for the array stored under [name]: an entry
    of that name that holds a tensor replaces what was found so far. *)
Definition assigned_step (name : string) (found : option (ndarray float))
    (entry : string * option (Tensor float)) : option (ndarray float) :=
  if decide (entry.1 = name)
  then match entry.2 with Some t => Some (data t) | None => found end
  else found.

(** The array of the last entry of [l] named [name] that holds a
    tensor. *)
Definition last_assigned (name : string)
    (l : list (string * option (Tensor float))) : option (ndarray float) :=
  foldl (assigned_step name) None l.




End serialization_more_terms.

(* ===================================================================== *)
(** * Paths of the state-dict files                                       *)
(* ===================================================================== *)

Module pathlib.
Import Strings.Ascii.

(** A Python string as the sequence of its characters. *)
Definition str : Type := list ascii.

(** The characters of a string literal. *)
Definition chars (s : string) : str := String.list_ascii_of_string s.

(** [s.endswith(t)] and [s.startswith(t)]. *)
Definition endswith (s t : str) : bool := bool_decide (t `suffix_of` s).
Definition startswith (s t : str) : bool := bool_decide (t `prefix_of` s).

(** [s.rfind(c)] for a character [c]; [None] stands for -1. *)
Fixpoint rfind (c : ascii) (s : str) : option nat :=
  match s with
  | [] => None
  | x :: s' =>
      match rfind c s' with
      | Some i => Some (S i)
      | None => if decide (x = c) then Some 0 else None
      end
  end.

(** A pure POSIX path, as [Path(path)] parses it: the text before the
    final component (empty, or ending with the separator) and the final
    component, which holds no separator. *)
Record Path : Type := mk_Path {
  directory : str;
  name : str
}.

Definition is_path (p : Path) : Prop :=
  (directory p = [] \/ endswith (directory p) (chars "/") = true) /\
  name p <> [] /\
  ("/"%char ∉ name p).

(** [os.fspath(p)]. *)
Definition fspath (p : Path) : str := directory p ++ name p.

(** [p.suffix] (CPython 3.8 to 3.13): the final component from its last
    dot on, unless that dot is its first or its last character. *)
Definition Path_suffix (p : Path) : str :=
  let name := name p in
  match rfind "." name with
  | Some i =>
      if (0 <? i) && (i <? length name - 1) then drop i name else []
  | None => []
  end.

(** [p.with_suffix(suffix)] (CPython 3.8 to 3.11; later versions agree
    on every suffix that is a dot followed by other characters).  The
    error messages end with the rejected value, which the model leaves
    out. *)
Definition Path_with_suffix (p : Path) (suffix : str) : result Path :=
  if bool_decide ("/"%char ∈ suffix)
  then Raise (ValueError "Invalid suffix")
  else if (bool_decide (suffix <> []) && negb (startswith suffix (chars "."))
           || bool_decide (suffix = chars "."))%bool
  then Raise (ValueError "Invalid suffix")
  else if bool_decide (name p = [])
  then Raise (ValueError "path has an empty name")
  else
    let old_suffix := Path_suffix p in
    let name' :=
      if bool_decide (old_suffix = [])
      then name p ++ suffix
      else take (length (name p) - length old_suffix) (name p) ++ suffix in
    Ok (mk_Path (directory p) name').

End pathlib.

Module state_dict_files.
Import Strings.Ascii pathlib.

(** The file [np.savez(file, ...)] writes when [file] is a path:
    [file = os.fspath(file)], then [".npz"] is appended unless the name
    already ends with it. *)
Definition savez_file (file : Path) : str :=
  let file := fspath file in
  if endswith file (chars ".npz") then file else file ++ chars ".npz".

(** The file [ModelSaver.save_state_dict(model, path)] writes: the one
    [np.savez] writes for [Path(path)]. *)
Definition save_state_dict_file (path : Path) : str := savez_file path.

(** The file [ModelSaver.load_state_dict(model, path)] hands to
    [np.load], or the exception raised before that: the path gets the
    suffix [".npz"] unless it has it. *)
Definition load_state_dict_file (path : Path) : result str :=
  let? path :=
    if bool_decide (Path_suffix path <> chars ".npz")
    then Path_with_suffix path (chars ".npz")
    else Ok path in
  Ok (fspath path).

End state_dict_files.

(* ===================================================================== *)
(** * Properties                                                         *)
(* ===================================================================== *)

(** ** float64 arithmetic *)

Module F64_facts.
Import F64.
Local Open Scope Z_scope.

(** Rounding an exact product by [2^52 * 2^-52] gives the operand back. *)
Lemma binary_round_aux_shift52 (s : bool) (m : positive) (e : Z) :
  bounded prec emax m e = true ->
  binary_round_aux prec emax s (Zpos (4503599627370496 * m)) (e + -52)
    loc_Exact = S754_finite s m e.
Proof.
  intros Hb. unfold bounded, canonical_mantissa in Hb.
  apply andb_true_iff in Hb as [Hc He].
  apply Z.eqb_eq in Hc. apply Z.leb_le in He.
  unfold binary_round_aux.
  assert (Hs : shr_fexp prec emax (Zpos (4503599627370496 * m)) (e + -52)
                 loc_Exact
               = ({| shr_m := Zpos m; shr_r := false; shr_s := false |}, e)).
  { unfold shr_fexp.
    assert (Hd : Zdigits2 (Zpos (4503599627370496 * m))
                 = Zpos (digits2_pos m) + 52).
    { simpl. rewrite Pos.mul_1_l, !Pos2Z.inj_succ. lia. }
    rewrite Hd.
    replace (Zpos (digits2_pos m) + 52 + (e + -52))
      with (Zpos (digits2_pos m) + e) by lia.
    rewrite Hc. replace (e - (e + -52)) with 52 by lia.
    replace (e + -52) with (e - 52) by lia.
    unfold shr. rewrite Z.sub_add. reflexivity. }
  rewrite Hs. cbn [shr_m loc_of_shr_record round_nearest_even].
  assert (Hs2 : shr_fexp prec emax (Zpos m) e loc_Exact
                = ({| shr_m := Zpos m; shr_r := false; shr_s := false |}, e)).
  { unfold shr_fexp. cbn [Zdigits2]. rewrite Hc, Z.sub_diag. reflexivity. }
  rewrite Hs2. cbn [shr_m].
  destruct (Z.leb_spec e (emax - prec)); [reflexivity | lia].
Qed.

Lemma SF64mul_one_r (x : spec_float) :
  valid_binary x = true -> SF64mul x (Prim2SF 1%float) = x.
Proof.
  intros Hv.
  change (Prim2SF 1%float) with (S754_finite false 4503599627370496 (-52)).
  destruct x as [s|s| |s m e]; try reflexivity.
  - destruct s; reflexivity.
  - destruct s; reflexivity.
  - unfold SF64mul, SFmul. rewrite Pos.mul_comm, xorb_false_r.
    now apply binary_round_aux_shift52.
Qed.

(** [x * 1.0 = x] for every float, NaN and infinities included. *)
Lemma mul_one_r (x : float) : (x * 1)%float = x.
Proof.
  apply Prim2SF_inj. rewrite mul_spec. apply SF64mul_one_r, Prim2SF_valid.
Qed.

(** [x * 0.0] is a zero when [x] is finite. *)
Lemma mul_zero_r_finite (x : float) :
  is_finite x = true -> is_zero (x * 0)%float = true.
Proof.
  unfold is_finite, is_zero. intros Hx.
  rewrite FloatAxioms.eqb_spec, mul_spec.
  change (Prim2SF 0%float) with (S754_zero false).
  destruct (Prim2SF x) as [s|s| |s m e]; try discriminate;
    destruct s; reflexivity.
Qed.

(** ... and NaN when it is not. *)
Lemma mul_zero_r_not_finite (x : float) :
  is_finite x = false -> (x * 0)%float = nan.
Proof.
  unfold is_finite. intros Hx. apply Prim2SF_inj. rewrite mul_spec.
  change (Prim2SF 0%float) with (S754_zero false).
  change (Prim2SF nan) with S754_nan.
  destruct (Prim2SF x) as [s|s| |s m e]; try discriminate; reflexivity.
Qed.

Lemma of_bool_times_zero (b : bool) : (of_bool b * 0)%float = 0%float.
Proof. destruct b; reflexivity. Qed.

End F64_facts.

(** ** Arrays: indexing, views, broadcasting *)

Module np_facts.
Import np.

Lemma length_strides (sh : list nat) : length (strides sh) = length sh.
Proof. induction sh; simpl; congruence. Qed.

Lemma offset_cons (i : nat) (idx : list nat) (s : nat) (st : list nat) :
  offset (i :: idx) (s :: st) = i * s + offset idx st.
Proof. reflexivity. Qed.

(** Flattening an in-range index and unravelling it again is the
    identity, and the flat offset is inside the buffer. *)
Lemma unravel_offset (idx sh : list nat) :
  in_range idx sh ->
  offset idx (strides sh) < size_of sh /\
  unravel_index (offset idx (strides sh)) sh = idx.
Proof.
  induction 1 as [|i n idx sh Hi _ [IHlt IHeq]]; simpl.
  - split; [cbv; lia | reflexivity].
  - rewrite offset_cons. set (P := size_of sh) in *.
    set (r := offset idx (strides sh)) in *.
    assert (HP : P <> 0) by lia.
    split.
    { change (size_of (n :: sh)) with (n * P).
      pose proof (Nat.mul_le_mono_r (S i) n P Hi). lia. }
    rewrite (Nat.add_comm (i * P) r), Nat.div_add, Nat.Div0.mod_add by done.
    rewrite Nat.div_small, Nat.mod_small by done.
    simpl. by rewrite IHeq.
Qed.

Lemma offset_unravel (sh : list nat) (o : nat) :
  o < size_of sh ->
  offset (unravel_index o sh) (strides sh) = o /\
  in_range (unravel_index o sh) sh.
Proof.
  revert o. induction sh as [|n sh IH]; intros o Ho; simpl in *.
  - split; [unfold offset; simpl; lia | constructor].
  - set (P := size_of sh) in *.
    assert (HP : P <> 0) by (intros ->; lia).
    destruct (IH (o mod P)) as [IHo IHr]; [by apply Nat.mod_upper_bound|].
    split.
    + rewrite offset_cons, IHo.
      pose proof (Nat.div_mod_eq o P). lia.
    + constructor; [|done].
      apply Nat.Div0.div_lt_upper_bound. lia.
Qed.

Section Views.
Context {A : Type} `{Inhabited A}.

Lemma length_as_strided (buf : list A) (sh st : list nat) :
  length (as_strided buf sh st) = size_of sh.
Proof. unfold as_strided. by rewrite length_fmap, length_seq. Qed.

(** Reading a view at an in-range index reads the buffer at the offset
    the view's strides give. *)
Lemma as_strided_lookup (buf : list A) (sh st idx : list nat) :
  in_range idx sh ->
  as_strided buf sh st !!! offset idx (strides sh)
  = buf !!! offset idx st.
Proof.
  intros Hr. destruct (unravel_offset idx sh Hr) as [Hlt Heq].
  unfold as_strided. apply list_lookup_total_correct.
  rewrite list_lookup_fmap, lookup_seq_lt by done. simpl.
  by rewrite Heq.
Qed.

Lemma item_as_strided (buf : list A) (sh st idx : list nat) :
  in_range idx sh ->
  item (mk_ndarray sh (as_strided buf sh st)) idx = buf !!! offset idx st.
Proof. apply as_strided_lookup. Qed.

(** The view with the array's own strides is the array. *)
Lemma as_strided_id (buf : list A) (sh : list nat) :
  length buf = size_of sh -> as_strided buf sh (strides sh) = buf.
Proof.
  intros Hlen. apply list_eq. intros o. unfold as_strided.
  rewrite list_lookup_fmap.
  destruct (decide (o < size_of sh)) as [Ho|Ho].
  - rewrite lookup_seq_lt by done. simpl.
    destruct (offset_unravel sh o Ho) as [-> _].
    symmetry. apply list_lookup_lookup_total_lt. lia.
  - rewrite lookup_seq_ge by lia. simpl.
    symmetry. apply lookup_ge_None. lia.
Qed.

Lemma broadcast_strides_rev_id (ash st : list nat) :
  length st = length ash ->
  broadcast_strides_rev ash st ash = Some st.
Proof.
  revert st. induction ash as [|d ash IH]; intros [|s st] Hlen;
    simpl in *; try done.
  rewrite IH by lia. simpl. by rewrite decide_True.
Qed.

Lemma broadcast_to_id (a : ndarray A) :
  wf a -> broadcast_to a (shape a) = Ok a.
Proof.
  intros Hwf. unfold broadcast_to, broadcast_strides.
  rewrite broadcast_strides_rev_id
    by (by rewrite !length_reverse, length_strides).
  simpl. rewrite reverse_involutive, as_strided_id by done.
  by destruct a.
Qed.
End Views.

Lemma broadcast_shapes_id (sh : list nat) :
  broadcast_shapes sh sh = Some sh.
Proof.
  unfold broadcast_shapes.
  assert (Hrev : forall s, broadcast_shapes_rev s s = Some s).
  { induction s as [|a s IH]; [done|]. simpl. rewrite IH. simpl.
    by rewrite decide_True. }
  rewrite Hrev. simpl. by rewrite reverse_involutive.
Qed.

(** On two well-formed arrays of one shape a binary ufunc works element
    by element. *)
Lemma ufunc2_same_shape {A B C} `{Inhabited A, Inhabited B}
    (f : A -> B -> C) (a : ndarray A) (b : ndarray B) :
  wf a -> wf b -> shape b = shape a ->
  ufunc2 f a b = Ok (mk_ndarray (shape a) (zip_with f (buffer a) (buffer b))).
Proof.
  intros Ha Hb Hsh. unfold ufunc2. rewrite Hsh, broadcast_shapes_id.
  rewrite broadcast_to_id by done.
  rewrite <- Hsh, broadcast_to_id by done. simpl. by rewrite Hsh.
Qed.

(** Broadcasting a per-channel array of shape (N, C, 1, 1) over the
    spatial extent: every position of channel (n, c) reads the one value
    stored for that channel. *)
Lemma broadcast_channels {A} `{!Inhabited A} (buf : list A) (N C H W : nat) :
  exists st,
    broadcast_to (mk_ndarray [N; C; 1; 1] buf) [N; C; H; W]
    = Ok (mk_ndarray [N; C; H; W] (as_strided buf [N; C; H; W] st)) /\
    forall n c h w, n < N -> c < C -> h < H -> w < W ->
      offset [n; c; h; w] st = n * C + c.
Proof.
  unfold broadcast_to, broadcast_strides. simpl.
  destruct (decide (1 = W)) as [<-|HW], (decide (1 = H)) as [<-|HH];
    simpl;
    repeat (match goal with
            | |- context [decide (?a = ?a)] =>
                rewrite (decide_True (P := a = a)) by done
            end; simpl);
    eexists; (split; [reflexivity|]);
    intros n c h w Hn Hc Hh Hw; unfold offset; simpl; nia.
Qed.

Lemma lookup_total_zip_with {A B C} `{!Inhabited A, !Inhabited B, !Inhabited C}
    (f : A -> B -> C) (l : list A) (k : list B) (i : nat) :
  i < length l -> i < length k ->
  zip_with f l k !!! i = f (l !!! i) (k !!! i).
Proof.
  intros Hl Hk. apply list_lookup_total_correct.
  rewrite lookup_zip_with.
  rewrite (list_lookup_lookup_total_lt l i Hl).
  by rewrite (list_lookup_lookup_total_lt k i Hk).
Qed.

Lemma item_zip_with {A B C} `{!Inhabited A, !Inhabited B, !Inhabited C}
    (f : A -> B -> C) (a : ndarray A) (b : ndarray B) (idx : list nat) :
  wf a -> wf b -> np.shape b = np.shape a -> in_range idx (np.shape a) ->
  item (mk_ndarray (np.shape a) (zip_with f (buffer a) (buffer b))) idx
  = f (item a idx) (item b idx).
Proof.
  intros Ha Hb Hsh Hr. unfold item. simpl. rewrite Hsh.
  destruct (unravel_offset idx _ Hr) as [Hlt _].
  apply lookup_total_zip_with; unfold wf in *; rewrite ?Hsh in *; lia.
Qed.

Lemma item_map_array {A B} `{!Inhabited A, !Inhabited B}
    (f : A -> B) (a : ndarray A) (idx : list nat) :
  wf a -> in_range idx (np.shape a) ->
  item (map_array f a) idx = f (item a idx).
Proof.
  intros Ha Hr. unfold item, map_array. simpl.
  destruct (unravel_offset idx _ Hr) as [Hlt _].
  apply list_lookup_total_fmap. unfold wf in Ha. lia.
Qed.

Lemma wf_map_array {A B} (f : A -> B) (a : ndarray A) :
  wf a -> wf (map_array f a).
Proof. unfold wf, map_array. simpl. by rewrite length_fmap. Qed.

Lemma zip_with_mul_constant (c : float) (xs ms : list float) :
  length xs = length ms -> Forall (fun m => m = c) ms ->
  zip_with PrimFloat.mul xs ms = (fun v => (v * c)%float) <$> xs.
Proof.
  revert ms. induction xs as [|x xs IH]; intros [|m ms] Hlen Hall;
    simpl in *; try done.
  inversion Hall; subst. f_equal. apply IH; [lia | done].
Qed.

End np_facts.

(** ** Axis permutations: what [np.transpose] accepts, what [np.argsort]
    returns *)

Module transpose_facts.
Import np np_facts core matrix matrix_terms.

Lemma check_and_adjust_axis_ok (axis : Z) (nd : nat) :
  axis_in_bounds nd axis ->
  check_and_adjust_axis axis nd = Ok (normalize_axis nd axis) /\
  normalize_axis nd axis < nd.
Proof.
  unfold axis_in_bounds, check_and_adjust_axis, normalize_axis. intros Hb.
  destruct (Z.ltb_spec axis (- Z.of_nat nd)); [lia|].
  destruct (Z.leb_spec (Z.of_nat nd) axis); [lia|]. simpl.
  split; [done|]. destruct (Z.ltb_spec axis 0); lia.
Qed.

Lemma check_and_adjust_axis_raise (axis : Z) (nd : nat) :
  ~ axis_in_bounds nd axis ->
  check_and_adjust_axis axis nd = Raise (AxisError axis nd).
Proof.
  unfold axis_in_bounds, check_and_adjust_axis. intros Hb.
  destruct (Z.ltb_spec axis (- Z.of_nat nd)); [done|].
  destruct (Z.leb_spec (Z.of_nat nd) axis); [done|]. lia.
Qed.

Lemma axis_in_bounds_dec (nd : nat) (axis : Z) :
  {axis_in_bounds nd axis} + {~ axis_in_bounds nd axis}.
Proof.
  unfold axis_in_bounds.
  destruct (decide (- Z.of_nat nd <= axis)%Z), (decide (axis < Z.of_nat nd)%Z);
    (left; lia) || (right; lia).
Qed.

(** The loop accepts exactly the in-bounds axes that name distinct, not
    yet used axes, and returns the axes named. *)
Lemma transpose_permutation_ok (nd : nat) (axes : list Z) (i : nat)
    (rp : list Z) :
  length rp = nd ->
  Forall (axis_in_bounds nd) axes ->
  NoDup (normalize_axis nd <$> axes) ->
  (forall a, a ∈ normalize_axis nd <$> axes -> rp !!! a = (-1)%Z) ->
  transpose_permutation nd axes i rp = Ok (normalize_axis nd <$> axes).
Proof.
  revert i rp. induction axes as [|ax axes IH]; intros i rp Hlen Hb Hnd Hfree.
  - reflexivity.
  - inversion Hb as [|? ? Hax Hrest]; subst.
    rewrite fmap_cons in Hnd. apply NoDup_cons in Hnd as [Hnotin Hnd].
    destruct (check_and_adjust_axis_ok ax (length rp) Hax) as [Hadj Hlt].
    cbn [transpose_permutation]. rewrite Hadj. cbn [Py.rbind].
    rewrite decide_True by (apply Hfree; rewrite fmap_cons; left).
    rewrite IH; try done.
    + by rewrite length_insert.
    + intros a Ha. rewrite list_lookup_total_insert_ne by congruence.
      apply Hfree. rewrite fmap_cons. by right.
Qed.

Lemma transpose_permutation_inv (nd : nat) (axes : list Z) (i : nat)
    (rp : list Z) (perm : list nat) :
  length rp = nd ->
  transpose_permutation nd axes i rp = Ok perm ->
  Forall (axis_in_bounds nd) axes /\
  NoDup (normalize_axis nd <$> axes) /\
  (forall a, a ∈ normalize_axis nd <$> axes -> rp !!! a = (-1)%Z) /\
  perm = normalize_axis nd <$> axes.
Proof.
  revert i rp perm.
  induction axes as [|ax axes IH]; intros i rp perm Hlen Hrun.
  - injection Hrun as <-. repeat split; [constructor | constructor |].
    intros a Ha. by apply elem_of_nil in Ha.
  - cbn [transpose_permutation] in Hrun.
    destruct (axis_in_bounds_dec nd ax) as [Hax|Hax];
      [|by rewrite check_and_adjust_axis_raise in Hrun].
    destruct (check_and_adjust_axis_ok ax nd Hax) as [Hadj Hlt].
    rewrite Hadj in Hrun. cbn [Py.rbind] in Hrun.
    destruct (decide (rp !!! normalize_axis nd ax = (-1)%Z)) as [Hfree|];
      [|done].
    destruct (transpose_permutation nd axes (S i)
                (<[normalize_axis nd ax := Z.of_nat i]> rp)) as [perm'|e] eqn:Hrest;
      [|done].
    injection Hrun as <-.
    destruct (IH _ _ _ ltac:(by rewrite length_insert) Hrest)
      as (Hb & Hnd & Hfree' & ->).
    assert (Hnotin : normalize_axis nd ax ∉ normalize_axis nd <$> axes).
    { intros Hin. specialize (Hfree' _ Hin).
      rewrite list_lookup_total_insert_eq in Hfree' by lia. lia. }
    repeat split.
    + by constructor.
    + rewrite fmap_cons. by constructor.
    + intros a Ha. rewrite fmap_cons in Ha.
      apply elem_of_cons in Ha as [->|Ha]; [done|].
      specialize (Hfree' a Ha).
      rewrite list_lookup_total_insert_ne in Hfree' by congruence. done.
Qed.

(** A failure of the loop is one of NumPy's two messages about the axes. *)
Lemma transpose_permutation_raise (nd : nat) (axes : list Z) (i : nat)
    (rp : list Z) (e : exn) :
  transpose_permutation nd axes i rp = Raise e ->
  (exists axis, axis ∈ axes /\ ~ axis_in_bounds nd axis /\
                e = AxisError axis nd) \/
  e = ValueError "repeated axis in transpose".
Proof.
  revert i rp. induction axes as [|ax axes IH]; intros i rp Hrun; [done|].
  cbn [transpose_permutation] in Hrun.
  destruct (axis_in_bounds_dec nd ax) as [Hax|Hax].
  - destruct (check_and_adjust_axis_ok ax nd Hax) as [Hadj _].
    rewrite Hadj in Hrun. cbn [Py.rbind] in Hrun.
    destruct (decide _); [|injection Hrun as <-; by right].
    destruct (transpose_permutation nd axes (S i) _) eqn:Hrest; [done|].
    injection Hrun as <-.
    destruct (IH _ _ Hrest) as [(axis & Hin & Hout & ->) | ->]; [left|by right].
    exists axis. split; [by right | done].
  - rewrite check_and_adjust_axis_raise in Hrun by done.
    injection Hrun as <-. left. exists ax. split; [by left | done].
Qed.

(** Distinct axes of the right number are all the axes. *)
Lemma valid_axes_iff (nd : nat) (axes : list Z) :
  valid_axes nd axes <->
  length axes = nd /\ Forall (axis_in_bounds nd) axes /\
  NoDup (normalize_axis nd <$> axes).
Proof.
  unfold valid_axes. split.
  - intros [Hb Hperm]. split; [|split; [done|]].
    + apply Permutation_length in Hperm.
      by rewrite length_fmap, length_seq in Hperm.
    + rewrite Hperm. apply NoDup_seq.
  - intros (Hlen & Hb & Hnd). split; [done|].
    apply submseteq_length_Permutation.
    + apply NoDup_submseteq; [done|]. intros a Ha.
      apply list_elem_of_fmap in Ha as (ax & -> & Hax).
      rewrite Forall_forall in Hb.
      destruct (check_and_adjust_axis_ok ax nd (Hb ax Hax)) as [_ Hlt].
      apply elem_of_seq. lia.
    + by rewrite length_fmap, length_seq, Hlen.
Qed.

Lemma transpose_Some_ok {A} `{!Inhabited A} (a : ndarray A) (axes : list Z) :
  is_ok (transpose a (Some axes)) = true <-> valid_axes (ndim a) axes.
Proof.
  rewrite valid_axes_iff. unfold transpose.
  destruct (decide (length axes = ndim a)) as [Hlen|Hlen].
  - destruct (transpose_permutation (ndim a) axes 0 _) as [perm|e] eqn:Hrun.
    + apply transpose_permutation_inv in Hrun as (Hb & Hnd & _ & _);
        [|by rewrite length_replicate]. done.
    + simpl. split; [done|]. intros (_ & Hb & Hnd).
      rewrite transpose_permutation_ok in Hrun; try done.
      * by rewrite length_replicate.
      * intros k Hk. apply list_elem_of_fmap in Hk as (ax & -> & Hax).
        rewrite Forall_forall in Hb.
        destruct (check_and_adjust_axis_ok ax _ (Hb ax Hax)) as [_ Hlt].
        by apply lookup_total_replicate_2.
  - simpl. split; [done|]. by intros [? _].
Qed.

Lemma transpose_Some_ndim {A} `{!Inhabited A} (a t : ndarray A)
    (axes : list Z) :
  transpose a (Some axes) = Ok t -> ndim t = length axes.
Proof.
  unfold transpose. destruct (decide _) as [Hlen|]; [|done].
  destruct (transpose_permutation _ _ _ _) as [perm|] eqn:Hrun; [|done].
  apply transpose_permutation_inv in Hrun as (_ & _ & _ & ->);
    [|by rewrite length_replicate].
  simpl. intros [= <-]. unfold ndim. simpl. by rewrite !length_fmap.
Qed.

Lemma transpose_Some_raise {A} `{!Inhabited A} (a : ndarray A)
    (axes : list Z) (e : exn) :
  transpose a (Some axes) = Raise e ->
  describes_invalid_axes (ndim a) axes e.
Proof.
  unfold transpose, describes_invalid_axes.
  destruct (decide _) as [Hlen|]; [|intros [= <-]; by left].
  destruct (transpose_permutation _ _ _ _) as [perm|e'] eqn:Hrun; [done|].
  simpl. intros [= <-]. right. by eapply transpose_permutation_raise.
Qed.

Lemma insert_key_Permutation (p : Z * nat) (l : list (Z * nat)) :
  insert_key p l ≡ₚ p :: l.
Proof.
  induction l as [|q l IH]; simpl; [done|].
  destruct (p.1 <=? q.1)%Z; [done|]. rewrite IH. apply Permutation_swap.
Qed.

(** [argsort] returns the positions of its argument, each once. *)
Lemma argsort_Permutation (keys : list Z) :
  argsort keys ≡ₚ seq 0 (length keys).
Proof.
  unfold argsort.
  assert (Hsort : forall l : list (Z * nat), foldr insert_key [] l ≡ₚ l).
  { induction l as [|p l IH]; simpl; [done|].
    by rewrite insert_key_Permutation, IH. }
  rewrite Hsort, snd_zip; [done|]. by rewrite length_seq.
Qed.

Lemma argsort_valid_axes (keys : list Z) :
  valid_axes (length keys) (Z.of_nat <$> argsort keys).
Proof.
  pose proof (argsort_Permutation keys) as Hperm. split.
  - apply Forall_fmap, Forall_forall. intros k Hk.
    rewrite Hperm in Hk. apply elem_of_seq in Hk.
    unfold axis_in_bounds. simpl. lia.
  - rewrite <- list_fmap_compose.
    rewrite (list_fmap_ext _ id (argsort keys)).
    + by rewrite list_fmap_id.
    + intros i k _. unfold normalize_axis. simpl.
      destruct (Z.ltb_spec (Z.of_nat k) 0); lia.
Qed.

Lemma insert_key_HdRel (a p : Z * nat) (l : list (Z * nat)) :
  key_le a p -> HdRel key_le a l -> HdRel key_le a (insert_key p l).
Proof.
  intros Hap Hal. destruct l as [|q l]; simpl; [by constructor|].
  destruct (p.1 <=? q.1)%Z; constructor; [done|].
  by apply HdRel_inv in Hal.
Qed.

Lemma insert_key_Sorted (p : Z * nat) (l : list (Z * nat)) :
  Sorted key_le l -> Sorted key_le (insert_key p l).
Proof.
  induction 1 as [|q l Hsorted IH Hhd]; simpl.
  - by repeat constructor.
  - destruct (Z.leb_spec p.1 q.1) as [Hle|Hgt].
    + constructor; [by constructor|]. by constructor.
    + constructor; [exact IH|].
      apply insert_key_HdRel; [|done]. unfold key_le. lia.
Qed.

Lemma Sorted_identity (j n : nat) : Sorted Z.le (Z.of_nat <$> seq j n).
Proof.
  revert j. induction n as [|n IH]; intros j; simpl; [constructor|].
  constructor; [apply IH|]. destruct n; simpl; constructor. lia.
Qed.

(** [np.argsort] of a permutation of 0, ..., n-1 is the argument ordering
    that sorts it back to the identity. *)
Lemma argsort_sorts_permutation (axes : list Z) :
  axes ≡ₚ Z.of_nat <$> seq 0 (length axes) ->
  (fun i => axes !!! i) <$> argsort axes
  = Z.of_nat <$> seq 0 (length axes).
Proof.
  intros Hperm. unfold argsort.
  set (pairs := zip axes (seq 0 (length axes))).
  set (sorted := foldr insert_key [] pairs).
  assert (Hsp : sorted ≡ₚ pairs).
  { unfold sorted. generalize pairs. intros l. induction l as [|p l IH]; simpl; [done|].
    by rewrite insert_key_Permutation, IH. }
  assert (Hss : Sorted key_le sorted).
  { unfold sorted. generalize pairs. intros l. induction l as [|p l IH]; simpl.
    - constructor.
    - by apply insert_key_Sorted. }
  assert (Hkeys : sorted.*1 = Z.of_nat <$> seq 0 (length axes)).
  { apply (Sorted_unique Z.le).
    - apply (Sorted_fmap _ key_le); [|done]. by intros [] [].
    - apply Sorted_identity.
    - rewrite Hsp. unfold pairs. rewrite fst_zip by (by rewrite length_seq).
      done. }
  assert (Hread : Forall (fun p : Z * nat => axes !!! p.2 = p.1) sorted).
  { rewrite Hsp. apply Forall_lookup. intros i [k j] Hij.
    apply lookup_zip_Some in Hij as [Hk Hj].
    apply lookup_seq in Hj as [-> _]. simpl.
    by apply list_lookup_total_correct. }
  rewrite <- Hkeys, <- list_fmap_compose.
  apply list_fmap_ext. intros i p Hp. simpl.
  rewrite Forall_lookup in Hread. by eapply Hread.
Qed.

Lemma argsort_lookup (axes : list Z) (j : nat) :
  axes ≡ₚ Z.of_nat <$> seq 0 (length axes) ->
  j < length axes ->
  exists i, argsort axes !! j = Some i /\ axes !! i = Some (Z.of_nat j).
Proof.
  intros Hperm Hj.
  pose proof (argsort_sorts_permutation axes Hperm) as Hsorts.
  pose proof (argsort_Permutation axes) as Hpos.
  assert (Hlen : length (argsort axes) = length axes).
  { by rewrite Hpos, length_seq. }
  destruct (lookup_lt_is_Some_2 (argsort axes) j) as [i Hi]; [lia|].
  exists i. split; [done|].
  assert (Hin : i ∈ seq 0 (length axes)).
  { rewrite <- Hpos. by eapply list_elem_of_lookup_2. }
  apply elem_of_seq in Hin.
  apply (f_equal (fun l => l !! j)) in Hsorts.
  rewrite list_lookup_fmap, Hi, list_lookup_fmap, lookup_seq_lt in Hsorts
    by done.
  simpl in Hsorts. injection Hsorts as <-.
  apply list_lookup_lookup_total_lt. lia.
Qed.

(** On a permutation written with the axis numbers 0, ..., n-1,
    [np.argsort] is the inverse permutation. *)
Lemma argsort_inverse_permutation (axes : list Z) :
  axes ≡ₚ Z.of_nat <$> seq 0 (length axes) ->
  Z.of_nat <$> argsort axes = inverse_permutation (length axes) axes.
Proof.
  intros Hperm. set (n := length axes).
  pose proof (argsort_Permutation axes) as Hpos.
  assert (Hnorm : normalize_axis n <$> axes ≡ₚ seq 0 n).
  { rewrite Hperm, <- list_fmap_compose.
    rewrite (list_fmap_ext _ id (seq 0 (length axes))).
    - by rewrite list_fmap_id.
    - intros i k _. unfold normalize_axis. simpl.
      destruct (Z.ltb_spec (Z.of_nat k) 0); lia. }
  assert (Hnd : NoDup (normalize_axis n <$> axes)).
  { rewrite Hnorm. apply NoDup_seq. }
  unfold inverse_permutation. apply list_eq. intros j.
  rewrite !list_lookup_fmap.
  destruct (decide (j < n)) as [Hj|Hj].
  - destruct (argsort_lookup axes j Hperm Hj) as (i & Hi & Hax).
    rewrite Hi, lookup_seq_lt by done. simpl. do 2 f_equal.
    assert (Hij : (normalize_axis n <$> axes) !! i = Some j).
    { rewrite list_lookup_fmap, Hax. simpl. f_equal.
      unfold normalize_axis. destruct (Z.ltb_spec (Z.of_nat j) 0); lia. }
    destruct (list_find (fun a => a = j) (normalize_axis n <$> axes))
      as [[i' x]|] eqn:Hfind.
    + apply list_find_Some in Hfind as (Hi' & -> & _). simpl.
      by eapply NoDup_lookup.
    + apply list_find_None in Hfind. rewrite Forall_lookup in Hfind.
      by destruct (Hfind i j Hij).
  - rewrite lookup_seq_ge by lia.
    rewrite lookup_ge_None_2; [done|].
    rewrite Hpos, length_seq. fold n. lia.
Qed.

Lemma sum_list_Permutation (l k : list nat) :
  l ≡ₚ k -> sum_list l = sum_list k.
Proof. induction 1; simpl; lia. Qed.

(** A list is the list of its elements by position. *)
Lemma list_tabulate {B} `{!Inhabited B} (l : list B) :
  (fun k => l !!! k) <$> seq 0 (length l) = l.
Proof.
  apply list_eq. intros i. rewrite list_lookup_fmap.
  destruct (decide (i < length l)) as [Hi|Hi].
  - rewrite lookup_seq_lt by done. simpl.
    symmetry. by apply list_lookup_lookup_total_lt.
  - rewrite lookup_seq_ge by lia. simpl.
    symmetry. apply lookup_ge_None. lia.
Qed.

(** Reading index and strides through one permutation of the positions
    does not change the offset. *)
Lemma offset_permute (p idx st : list nat) (n : nat) :
  p ≡ₚ seq 0 n -> length idx = n -> length st = n ->
  offset ((fun k => idx !!! k) <$> p) ((fun k => st !!! k) <$> p)
  = offset idx st.
Proof.
  intros Hp Hidx Hst. unfold offset.
  rewrite zip_with_fmap_l, zip_with_fmap_r, zip_with_diag.
  rewrite (sum_list_Permutation _ _ (fmap_Permutation _ _ _ Hp)).
  f_equal. apply list_eq. intros i.
  rewrite list_lookup_fmap, lookup_zip_with.
  destruct (decide (i < n)) as [Hi|Hi].
  - rewrite lookup_seq_lt by done. simpl.
    rewrite (list_lookup_lookup_total_lt idx i) by lia.
    by rewrite (list_lookup_lookup_total_lt st i) by lia.
  - rewrite lookup_seq_ge by lia. simpl.
    by rewrite (lookup_ge_None_2 idx i) by lia.
Qed.

(** Reading through [p] and then through [q] is reading through the
    composition. *)
Lemma fmap_lookup_total_compose {B C} `{!Inhabited B, !Inhabited C}
    (f : C -> B) (p : list C) (q : list nat) :
  Forall (fun k => k < length p) q ->
  (fun k => (f <$> p) !!! k) <$> q = f <$> ((fun k => p !!! k) <$> q).
Proof.
  intros Hq. rewrite <- list_fmap_compose. apply list_fmap_ext.
  intros i k Hk. simpl. rewrite Forall_lookup in Hq.
  by apply list_lookup_total_fmap, (Hq i).
Qed.

Section Roundtrip.
Context {A : Type} `{!Inhabited A}.

(** Permuting the axes by [p] and then by [q], where [p] after [q] is
    the identity, gives the array back. *)
Lemma permute_axes_inverse (a : ndarray A) (p q : list nat) :
  wf a ->
  p ≡ₚ seq 0 (ndim a) -> q ≡ₚ seq 0 (ndim a) ->
  (fun k => p !!! k) <$> q = seq 0 (ndim a) ->
  permute_axes (permute_axes a p) q = a.
Proof.
  intros Hwf Hp Hq Hpq. destruct a as [sh buf]. unfold wf, ndim in *.
  simpl in *. set (n := length sh) in *.
  assert (Hlp : length p = n) by (by rewrite Hp, length_seq).
  assert (Hqlt : Forall (fun k => k < length p) q).
  { apply Forall_forall. intros k Hk. rewrite Hq in Hk.
    apply elem_of_seq in Hk. lia. }
  assert (Hplt : Forall (fun k => k < n) p).
  { apply Forall_forall. intros k Hk. rewrite Hp in Hk.
    apply elem_of_seq in Hk. lia. }
  unfold permute_axes. simpl.
  set (sh_t := (fun k => sh !!! k) <$> p).
  assert (Hsh : (fun k => sh_t !!! k) <$> q = sh).
  { unfold sh_t. rewrite fmap_lookup_total_compose, Hpq by done.
    apply list_tabulate. }
  rewrite Hsh. f_equal.
  apply list_eq. intros o. unfold as_strided at 1.
  rewrite list_lookup_fmap.
  destruct (decide (o < size_of sh)) as [Ho|Ho].
  2:{ rewrite lookup_seq_ge by lia. simpl. symmetry.
      apply lookup_ge_None. lia. }
  rewrite lookup_seq_lt by done. simpl.
  destruct (offset_unravel sh o Ho) as [Hoff Hrange].
  set (idx := unravel_index o sh) in *.
  assert (Hli : length idx = n) by (by apply Forall2_length in Hrange).
  set (idx' := (fun k => idx !!! k) <$> p).
  assert (Hidx : idx = (fun k => idx' !!! k) <$> q).
  { unfold idx'. rewrite fmap_lookup_total_compose, Hpq by done.
    rewrite <- Hli. symmetry. apply list_tabulate. }
  assert (Hrange' : in_range idx' sh_t).
  { unfold in_range, idx', sh_t. apply Forall2_fmap, Forall_Forall2_diag.
    eapply Forall_impl; [exact Hplt|]. intros k Hk. simpl in *.
    destruct (lookup_lt_is_Some_2 idx k) as [i Hi]; [lia|].
    destruct (lookup_lt_is_Some_2 sh k) as [d Hd]; [lia|].
    rewrite (list_lookup_total_correct _ _ _ Hi).
    rewrite (list_lookup_total_correct _ _ _ Hd).
    by eapply (Forall2_lookup_lr _ _ _ _ _ _ Hrange). }
  rewrite Hidx at 1.
  rewrite (offset_permute q idx' (strides sh_t) n);
    [|done | by unfold idx'; rewrite length_fmap
     | by unfold sh_t; rewrite length_strides, length_fmap].
  rewrite as_strided_lookup by done.
  unfold idx'. rewrite (offset_permute p idx (strides sh) n);
    [|done | done | by rewrite length_strides].
  rewrite Hoff. symmetry. apply list_lookup_lookup_total_lt. lia.
Qed.
End Roundtrip.

Lemma normalize_axis_of_nat (n k : nat) : normalize_axis n (Z.of_nat k) = k.
Proof.
  unfold normalize_axis. destruct (Z.ltb_spec (Z.of_nat k) 0); lia.
Qed.

Lemma normalize_axis_identity (n : nat) (l : list nat) :
  normalize_axis n <$> (Z.of_nat <$> l) = l.
Proof.
  rewrite <- list_fmap_compose, (list_fmap_ext _ id l).
  - apply list_fmap_id.
  - intros i k _. apply normalize_axis_of_nat.
Qed.

(** A permutation written with the axis numbers 0, ..., n-1 is valid. *)
Lemma canonical_valid_axes (axes : list Z) :
  axes ≡ₚ Z.of_nat <$> seq 0 (length axes) ->
  valid_axes (length axes) axes.
Proof.
  intros Hperm. split.
  - apply Forall_forall. intros ax Hax. rewrite Hperm in Hax.
    apply list_elem_of_fmap in Hax as (k & -> & Hk).
    apply elem_of_seq in Hk. unfold axis_in_bounds. lia.
  - etrans; [apply fmap_Permutation, Hperm|].
    by rewrite normalize_axis_identity.
Qed.

Section Transposes.
Context {A : Type} `{!Inhabited A}.

Lemma transpose_valid (a : ndarray A) (axes : list Z) :
  valid_axes (ndim a) axes ->
  transpose a (Some axes)
  = Ok (permute_axes a (normalize_axis (ndim a) <$> axes)).
Proof.
  intros Hvalid. apply valid_axes_iff in Hvalid as (Hlen & Hb & Hnd).
  unfold transpose. rewrite decide_True by done.
  rewrite transpose_permutation_ok; try done.
  - by rewrite length_replicate.
  - intros k Hk. apply list_elem_of_fmap in Hk as (ax & -> & Hax).
    rewrite Forall_forall in Hb.
    destruct (check_and_adjust_axis_ok ax _ (Hb ax Hax)) as [_ Hlt].
    by apply lookup_total_replicate_2.
Qed.

(** [np.transpose] with no axes is its own inverse. *)
Theorem transpose_reversal_involutive (a : ndarray A) :
  wf a ->
  exists t, transpose a None = Ok t /\ transpose t None = Ok a.
Proof.
  intros Hwf. eexists. split; [reflexivity|].
  unfold transpose. simpl. f_equal.
  set (n := ndim a).
  assert (Hnd : ndim (permute_axes a (reverse (seq 0 n))) = n).
  { unfold ndim, permute_axes. simpl.
    by rewrite length_fmap, length_reverse, length_seq. }
  rewrite Hnd.
  apply permute_axes_inverse; try done; fold n.
  - apply reverse_Permutation.
  - apply reverse_Permutation.
  - rewrite fmap_reverse.
    pose proof (list_tabulate (reverse (seq 0 n))) as Htab.
    rewrite length_reverse, length_seq in Htab.
    by rewrite Htab, reverse_involutive.
Qed.

(** Transposing by a permutation of 0, ..., n-1 and then by its
    [np.argsort] gives the array back. *)
Theorem transpose_argsort_involutive (a : ndarray A) (axes : list Z) :
  wf a ->
  length axes = ndim a ->
  axes ≡ₚ Z.of_nat <$> seq 0 (length axes) ->
  exists t,
    transpose a (Some axes) = Ok t /\
    transpose t (Some (Z.of_nat <$> argsort axes)) = Ok a.
Proof.
  intros Hwf Hlen Hperm.
  pose proof (canonical_valid_axes axes Hperm) as Hvalid.
  rewrite Hlen in Hvalid.
  eexists. split; [by apply transpose_valid|].
  set (p := normalize_axis (ndim a) <$> axes).
  assert (Hnd : ndim (permute_axes a p) = length axes).
  { unfold ndim, permute_axes, p. simpl. by rewrite !length_fmap. }
  rewrite transpose_valid
    by (rewrite Hnd; apply argsort_valid_axes).
  rewrite normalize_axis_identity. f_equal.
  destruct Hvalid as [_ Hp].
  apply permute_axes_inverse; try done.
  - by rewrite argsort_Permutation, Hlen.
  - unfold p.
    assert (Hq : Forall (fun k => k < length axes) (argsort axes)).
    { apply Forall_forall. intros k Hk.
      rewrite argsort_Permutation in Hk. apply elem_of_seq in Hk. lia. }
    rewrite fmap_lookup_total_compose by done.
    rewrite argsort_sorts_permutation by done.
    by rewrite normalize_axis_identity, Hlen.
Qed.
End Transposes.

End transpose_facts.

(** ** Transposition and comparisons ([DLpy/ops/matrix.py]) *)

Module matrix_facts.
Import np core matrix matrix_terms transpose_facts.

(** C4. For each of the six comparison operations, every context, every
    [grad_output] and every gradient map, [backward] returns normally and
    leaves the gradient map as it was. *)
Theorem Compare_backward_noop (c : comparison) (ctx : Context float)
    (grad_output : ndarray float) (grad_dict : gmap Z (ndarray float)) :
  backward_of c ctx grad_output grad_dict = (Ok tt, grad_dict).
Proof. destruct c; reflexivity. Qed.

(** C1, as amended. When the saved input [x] requires a gradient,
    [Transpose.backward] stores its contribution under [id(x)] in place of
    whatever entry was there; no other entry changes. *)
Theorem Transpose_backward_overwrites {A} `{Inhabited A}
    (ctx : Context A) (x : Tensor A) (axes : option (list Z))
    (grad_output c : ndarray A) (grad_dict : gmap Z (ndarray A)) :
  saved_tensors ctx = [x] ->
  saved_arguments ctx !! "axes" = Some axes ->
  requires_grad x = true ->
  contribution axes grad_output = Ok c ->
  Transpose_backward ctx grad_output grad_dict
  = (Ok tt, <[py_id x := c]> grad_dict).
Proof.
  intros Hx Hax Hrg Hc. unfold Transpose_backward.
  rewrite Hx, Hax, Hrg. unfold contribution in Hc.
  destruct axes as [axes|]; unfold Py.bind, Py.lift; by rewrite Hc.
Qed.

Lemma Transpose_backward_overwrites_witness :
  Transpose_backward (saved (scalar_tensor 5 true 7) None)
    (mk_ndarray [1; 1] [2%float])
    {[ 7%Z := mk_ndarray [1; 1] [1%float] ]}
  = (Ok tt, <[7%Z := mk_ndarray [1; 1] [2%float]]>
              {[ 7%Z := mk_ndarray [1; 1] [1%float] ]}).
Proof.
  apply (Transpose_backward_overwrites
           (saved (scalar_tensor 5 true 7) None) (scalar_tensor 5 true 7)
           None); reflexivity.
Defined.

(** C1, as stated, fails: with an entry [[1.0]] already present for
    [id(x)] and a contribution [[2.0]], accumulation would leave [[3.0]];
    the entry after [backward] is [[2.0]]. *)
Lemma Transpose_backward_does_not_accumulate :
  let x := scalar_tensor 5 true 7 in
  let grad_dict : gmap Z (ndarray float) :=
    {[ 7%Z := mk_ndarray [1; 1] [1%float] ]} in
  let grad_output := mk_ndarray [1; 1] [2%float] in
  contribution None grad_output = Ok (mk_ndarray [1; 1] [2%float]) /\
  accumulated grad_dict (py_id x) (mk_ndarray [1; 1] [2%float])
    = Ok (mk_ndarray [1; 1] [3%float]) /\
  (Transpose_backward (saved x None) grad_output grad_dict).2 !! py_id x
    <> Some (mk_ndarray [1; 1] [3%float]).
Proof.
  split; [reflexivity|]. split; [reflexivity|].
  intros Heq. apply (f_equal (first_element_is 2)) in Heq.
  vm_compute in Heq. discriminate.
Qed.

(** C2, as amended. The tensor a forward call of [Transpose] or of a
    comparison returns is built without a [requires_grad] argument: its
    flag is the constructor's default, whatever the flags of the
    inputs. *)
Theorem forward_output_flag_is_default (requires_grad_default : bool)
    (call : Function_call) (s : call_state float) (flag : bool) :
  output_requires_grad requires_grad_default call s = Ok flag ->
  flag = requires_grad_default.
Proof.
  destruct call as [x axes|c x1 x2]; simpl.
  - unfold Transpose_forward, as_tensor, with_ctx, Py.bind, Py.lift,
      Py.modify, Py.ret, Tensor_new.
    destruct x as [t|a], axes as [axes|]; simpl;
      try match goal with
          | |- context [transpose ?d ?ax] => destruct (transpose d ax)
          end; simpl; congruence.
  - assert (Hcmp : forall op,
      flag_of (Compare__compare requires_grad_default op x1 x2 s).1
      = Ok flag -> flag = requires_grad_default).
    { intros op. unfold Compare__compare, as_tensor, Py.bind, Py.lift,
        Py.ret, Tensor_new.
      destruct x1 as [t1|a1], x2 as [t2|a2]; simpl;
        try match goal with
            | |- context [op ?d1 ?d2] => destruct (op d1 d2)
            end; simpl; congruence. }
    destruct c; apply Hcmp.
Qed.

Lemma forward_output_flag_is_default_witness :
  output_requires_grad false
    (Transpose_call (inl (scalar_tensor 5 true 7)) None) empty_state
  = Ok false /\ false = false.
Proof.
  split; [reflexivity|].
  apply (forward_output_flag_is_default false
           (Transpose_call (inl (scalar_tensor 5 true 7)) None)
           empty_state false).
  reflexivity.
Defined.

(** C2, as stated, fails whichever default the constructor has: with
    default [False] the transpose of a tensor that requires a gradient
    does not require one; with default [True] the transpose of a tensor
    that requires none does. *)
Lemma forward_does_not_propagate_requires_grad :
  let call_t := Transpose_call (inl (scalar_tensor 5 true 7)) None in
  let call_f := Transpose_call (inl (scalar_tensor 5 false 7)) None in
  (output_requires_grad false call_t empty_state = Ok false /\
   any_input_requires_grad call_t = true) /\
  (output_requires_grad true call_f empty_state = Ok true /\
   any_input_requires_grad call_f = false).
Proof. repeat split. Qed.

(** Where the code does what C3 says: with no axes, or with axes written
    as a permutation of 0, ..., n-1, the contribution is the gradient
    permuted by the inverse permutation, and it undoes the forward
    transposition. *)
Theorem Transpose_backward_inverts_canonical_axes {A} `{!Inhabited A}
    (a : ndarray A) (axes : option (list Z)) :
  wf a ->
  canonical_axes (ndim a) axes ->
  (forall ax (grad_output : ndarray A), axes = Some ax ->
     contribution axes grad_output
     = transpose grad_output (Some (inverse_permutation (ndim a) ax))) /\
  exists t, transpose a axes = Ok t /\ contribution axes t = Ok a.
Proof.
  intros Hwf Hcanonical. destruct axes as [ax|]; simpl in *.
  - destruct Hcanonical as [Hlen Hperm]. split.
    + intros ? grad_output [= <-].
      by rewrite argsort_inverse_permutation, Hlen.
    + by apply transpose_argsort_involutive.
  - split; [done|]. by apply transpose_reversal_involutive.
Qed.

Lemma Transpose_backward_inverts_canonical_axes_witness :
  let a := mk_ndarray [2; 3] [1; 2; 3; 4; 5; 6]%float in
  exists t,
    transpose a (Some [1; 0]%Z) = Ok t /\
    contribution (Some [1; 0]%Z) t = Ok a.
Proof.
  apply (Transpose_backward_inverts_canonical_axes
           (mk_ndarray [2; 3] [1; 2; 3; 4; 5; 6]%float) (Some [1; 0]%Z)).
  - reflexivity.
  - split; [reflexivity|]. simpl. apply Permutation_swap.
Defined.

(** C3 at an input the code mishandles.  [axes = (-1, 0)] is accepted by
    forward (NumPy reads -1 as the last axis, so it swaps the two axes of a
    2 x 3 tensor).  Its inverse permutation is (1, 0), which maps a
    gradient of the transposed shape 3 x 2 back to 2 x 3.  [np.argsort]
    orders the raw entries, [argsort (-1, 0) = (0, 1)], so backward stores
    the gradient unpermuted, still of shape 3 x 2. *)
Lemma Transpose_backward_negative_axes :
  let x := mk_Tensor (mk_ndarray [2; 3] [1; 2; 3; 4; 5; 6]%float) None true 7 in
  let axes := [-1; 0]%Z in
  let grad_output := mk_ndarray [3; 2] [10; 20; 30; 40; 50; 60]%float in
  (* forward accepts the axes and transposes to 3 x 2 *)
  (np.shape <$> (data <$>
     returned_by (Transpose_forward false (inl x) (Some axes) empty_state))
   = Some [3; 2]) /\
  (* the inverse permutation, and the gradient permuted by it *)
  inverse_permutation 2 axes = [1; 0]%Z /\
  transpose grad_output (Some (inverse_permutation 2 axes))
  = Ok (mk_ndarray [2; 3] [10; 30; 50; 20; 40; 60]%float) /\
  (* what backward computes and stores *)
  argsort axes = [0; 1] /\
  (Transpose_backward (saved x (Some axes)) grad_output ∅).2 !! py_id x
  = Some grad_output /\
  np.shape grad_output <> np.shape (data x).
Proof. repeat split. discriminate. Qed.

(** C7. An [axes] argument that is not a permutation of the input's axes
    makes [Transpose.forward] raise one of NumPy's errors about the axes
    ("axes don't match array", an out-of-bounds axis, "repeated axis in
    transpose"), and only such an argument does; and whenever forward
    returned, for [axes] given or not, [Transpose.backward] on the context
    it filled and a gradient of the output's shape returns normally. *)
Theorem Transpose_rejects_invalid_axes_at_forward {A} `{!Inhabited A}
    (requires_grad_default : bool) (x : Tensor A + ndarray A)
    (s : call_state A) :
  (forall axes,
     ~ valid_axes (ndim (input_array x)) axes ->
     exists e,
       (Transpose_forward requires_grad_default x (Some axes) s).1 = Raise e /\
       describes_invalid_axes (ndim (input_array x)) axes e) /\
  (forall axes,
     valid_axes (ndim (input_array x)) axes ->
     is_ok (Transpose_forward requires_grad_default x (Some axes) s).1
     = true) /\
  (forall axes out s',
     Transpose_forward requires_grad_default x axes s = (Ok out, s') ->
     forall grad_output grad_dict,
       np.shape grad_output = np.shape (data out) ->
       (Transpose_backward (ctx s') grad_output grad_dict).1 = Ok tt).
Proof.
  split; [|split].
  - intros axes Hbad.
    assert (Hraise : exists e, transpose (input_array x) (Some axes) = Raise e).
    { destruct (transpose (input_array x) (Some axes)) as [t|e] eqn:Ht;
        [|by exists e].
      exfalso. apply Hbad, transpose_Some_ok. by rewrite Ht. }
    destruct Hraise as [e He]. exists e.
    split; [|by apply transpose_Some_raise].
    unfold Transpose_forward, as_tensor, with_ctx, Py.bind, Py.lift,
      Py.modify, Py.ret, Tensor_new.
    destruct x as [t|a]; simpl in *; by rewrite He.
  - intros axes Hvalid.
    unfold Transpose_forward, as_tensor, with_ctx, Py.bind, Py.lift,
      Py.modify, Py.ret, Tensor_new.
    destruct x as [t|a]; simpl in *; by rewrite transpose_valid.
  - intros axes out s' Hfwd grad_output grad_dict Hshape.
    assert (Hctx : exists x',
      saved_tensors (ctx s') = [x'] /\
      saved_arguments (ctx s') !! "axes" = Some axes /\
      exists t, transpose (data x') axes = Ok t /\ data out = t).
    { unfold Transpose_forward, as_tensor, with_ctx, Py.bind, Py.lift,
        Py.modify, Py.ret, Tensor_new in Hfwd.
      destruct x as [x'|a], axes as [axes|]; simpl in Hfwd;
        try match type of Hfwd with
            | context [transpose ?d ?ax] =>
                destruct (transpose d ax) as [t|e] eqn:Ht; [|done]
            end; injection Hfwd as <- <-; simpl;
        eexists; (split; [reflexivity|]);
        (split; [by rewrite lookup_union_l', lookup_insert_eq
                   by (rewrite lookup_insert_eq; eauto)|]);
        eexists; (split; [first [eassumption | reflexivity] | reflexivity]). }
    destruct Hctx as (x' & Hx & Hax & t & Ht & Hout).
    unfold Transpose_backward. rewrite Hx, Hax.
    destruct (requires_grad x'); [|done].
    destruct axes as [axes|]; unfold Py.bind, Py.lift.
    + assert (Hok : is_ok (transpose grad_output
                             (Some (Z.of_nat <$> argsort axes))) = true).
      { apply transpose_Some_ok.
        replace (ndim grad_output) with (length axes);
          [apply argsort_valid_axes|].
        apply transpose_Some_ndim in Ht. unfold ndim in *.
        by rewrite Hshape, Hout. }
      by destruct (transpose grad_output _).
    + reflexivity.
Qed.

Lemma Transpose_rejects_invalid_axes_at_forward_witness :
  let x := mk_Tensor (mk_ndarray [2; 3] [1; 2; 3; 4; 5; 6]%float) None true 7 in
  (exists e,
     (Transpose_forward false (inl x) (Some [1; 1]%Z) empty_state).1
     = Raise e /\
     describes_invalid_axes 2 [1; 1]%Z e) /\
  match Transpose_forward false (inl x) (Some [1; 0]%Z) empty_state with
  | (Ok out, s') =>
      (Transpose_backward (ctx s')
         (mk_ndarray [3; 2] [1; 2; 3; 4; 5; 6]%float) ∅).1 = Ok tt
  | (Raise _, _) => False
  end.
Proof.
  destruct (Transpose_rejects_invalid_axes_at_forward false
              (inl (mk_Tensor (mk_ndarray [2; 3] [1; 2; 3; 4; 5; 6]%float)
                      None true 7)) empty_state) as [Hreject Hbackward].
  split.
  - apply Hreject. intros Hvalid.
    apply valid_axes_iff in Hvalid as (_ & _ & Hnodup).
    vm_compute in Hnodup. apply NoDup_cons in Hnodup as [Hnotin _].
    apply Hnotin. by left.
  - destruct (Transpose_forward false _ (Some [1; 0]%Z) empty_state)
      as [[out|e] s'] eqn:Hforward.
    + pose proof Hforward as Hvalue. vm_compute in Hvalue.
      injection Hvalue as <- <-.
      eapply Hbackward; [exact Hforward | reflexivity].
    + vm_compute in Hforward. discriminate.
Defined.

End matrix_facts.

(** ** Samplers ([DLpy/data/samplers.py]) *)

Module samplers_facts.
Import random samplers.

Lemma shuffle_from_ok (i : nat) (x : list nat) (g : RandomState) :
  exists l, shuffle_from i x g = (Ok l, advance i g).
Proof.
  revert x g. induction i as [|i IH]; intros x g.
  - exists x. destruct g as [d r p]. unfold advance. simpl.
    by rewrite Nat.add_0_r.
  - cbn [shuffle_from]. unfold Py.bind, interval.
    cbn [generator set_generator generator_random].
    edestruct IH as [l Hl]. exists l. rewrite Hl. f_equal.
    destruct g as [d r p]. unfold advance. simpl. f_equal. lia.
Qed.

(** C9. Constructing a sampler succeeds whether or not a data source is
    given.  Without a data source every iteration request and every length
    query on a [SequentialSampler] or a [RandomSampler] raises
    [ValueError]; with one, none of them raises. *)
Theorem samplers_fail_at_use_not_at_construction
    (data_source : option Sized) (g : RandomState) :
  exists self,
    Sampler_init data_source = Ok self /\
    match data_source with
    | None =>
        let e := ValueError "data_source cannot be None" in
        (SequentialSampler_iter self g).1 = Raise e /\
        (SequentialSampler_len self g).1 = Raise e /\
        (RandomSampler_iter self g).1 = Raise e /\
        (RandomSampler_len self g).1 = Raise e
    | Some ds =>
        (SequentialSampler_iter self g).1 = Ok (seq 0 (len ds)) /\
        (SequentialSampler_len self g).1 = Ok (len ds) /\
        is_ok (RandomSampler_iter self g).1 = true /\
        (RandomSampler_len self g).1 = Ok (len ds)
    end.
Proof.
  exists (mk_Sampler data_source). split; [reflexivity|].
  destruct data_source as [ds|]; repeat split.
  unfold RandomSampler_iter, permutation, Py.bind. simpl.
  destruct (shuffle_from_ok (len ds - 1) (seq 0 (len ds)) g) as [l Hl].
  by rewrite Hl.
Qed.

End samplers_facts.

(** ** Dropout layers ([DLpy/nn/base/dropout.py]) *)

Module dropout_facts.
Import np np_facts core dropout dropout_terms.

(** C10. In training mode [Dropout2d.forward] raises [AssertionError] on
    every input that does not have exactly four dimensions, before it
    draws anything and with nothing changed; in evaluation mode it returns
    the input object unchanged whatever its dimensions. *)
Theorem Dropout2d_forward_requires_4d (requires_grad_default : bool)
    (self : Dropout) (w : world) :
  training (base self) = false \/ length (shape (x_object w)) <> 4 ->
  Dropout2d_forward requires_grad_default self w
  = if training (base self)
    then (Raise (AssertionError
                   ("expected 4D input, got "
                    +:+ pretty (length (shape (x_object w)))
                    +:+ "D input")), w)
    else (Ok (x_object w), w).
Proof.
  intros Hcase. unfold Dropout2d_forward, Py.bind, read_x. simpl.
  destruct (training (base self)); [|reflexivity].
  destruct Hcase as [Hcase|Hcase]; [discriminate|].
  by rewrite decide_False.
Qed.

Lemma Dropout2d_forward_requires_4d_witness :
  Dropout2d_forward false (layer true 0.5 false)
    (world_of [2; 3] [1; 2; 3; 4; 5; 6]%float 0.25)
  = (Raise (AssertionError "expected 4D input, got 2D input"),
     world_of [2; 3] [1; 2; 3; 4; 5; 6]%float 0.25).
Proof.
  apply (Dropout2d_forward_requires_4d false (layer true 0.5 false)
           (world_of [2; 3] [1; 2; 3; 4; 5; 6]%float 0.25)).
  right. simpl. lia.
Defined.

(** C5, as amended. In evaluation mode [Dropout.forward] returns the input
    object, for every [p].  In training mode, on an input of at least one
    dimension: with [p = 0] the output data equals the input data whenever
    every draw is greater than 0; with [p = 1] every output element is the
    input element times 0.0 (the scale is 0.0, nothing is divided), a zero
    for every finite input element. *)
Theorem Dropout_forward_boundaries (requires_grad_default : bool)
    (self : Dropout) (w : world) :
  wf (data (x_object w)) ->
  (training (base self) = false ->
     Dropout_forward requires_grad_default self w = (Ok (x_object w), w)) /\
  (training (base self) = true -> core.shape (x_object w) <> [] ->
   p self = 0%float ->
     (forall i, i < size_of (core.shape (x_object w)) ->
        PrimFloat.ltb 0 (draw w i) = true) ->
     exists out w',
       Dropout_forward requires_grad_default self w = (Ok out, w') /\
       data out = data (x_object w)) /\
  (training (base self) = true -> core.shape (x_object w) <> [] ->
   p self = 1%float ->
     exists out w',
       Dropout_forward requires_grad_default self w = (Ok out, w') /\
       np.shape (data out) = core.shape (x_object w) /\
       buffer (data out)
       = (fun v => (v * 0)%float) <$> buffer (data (x_object w)) /\
       (Forall (fun v => F64.is_finite v = true)
          (buffer (data (x_object w))) ->
        Forall (fun v => F64.is_zero v = true) (buffer (data out)))).
Proof.
  intros Hwf.
  assert (Hrun : forall c,
    training (base self) = true -> core.shape (x_object w) <> [] ->
    (forall i, i < size_of (core.shape (x_object w)) ->
       (F64.of_bool (PrimFloat.ltb (p self) (draw w i)) * scale_of (p self))%float = c) ->
    exists out w',
      Dropout_forward requires_grad_default self w = (Ok out, w') /\
      data out = mk_ndarray (core.shape (x_object w))
                   ((fun v => (v * c)%float) <$> buffer (data (x_object w)))).
  { intros c Htr Hnd Hc.
    unfold Dropout_forward, Py.bind, read_x. cbn [fst snd]. rewrite Htr.
    destruct (core.shape (x_object w)) as [|d0 ds] eqn:Hsh; [done|].
    rewrite <- Hsh in *. clear Hsh d0 ds Hnd.
    unfold random.rand. cbn [random.generator world_random].
    unfold Py.lift, multiply, core.shape in *.
    set (n := size_of (np.shape (data (x_object w)))) in *.
    set (mask := times (scale_of (p self)) (keep_mask (p self) _)).
    assert (Hmask : wf mask).
    { unfold wf, mask. simpl. by rewrite !length_fmap, length_seq. }
    assert (Hval : Forall (fun m => m = c) (buffer mask)).
    { unfold mask. simpl. apply Forall_lookup. intros i m.
      rewrite !list_lookup_fmap. intros Hm.
      destruct (decide (i < n)) as [Hi|Hi].
      - rewrite lookup_seq_lt in Hm by done. simpl in Hm.
        injection Hm as <-. by apply Hc.
      - rewrite lookup_seq_ge in Hm by lia. done. }
    rewrite (ufunc2_same_shape _ (data (x_object w)) mask) by done.
    rewrite (zip_with_mul_constant c) by
      (try done; unfold wf in *; rewrite Hwf, Hmask; done).
    destruct (inplace self).
    - unfold write_x_data, Py.modify. cbn [fst snd x_object].
      eexists _, _. split; reflexivity.
    - unfold Tensor_new. eexists _, _. split; reflexivity. }
  split; [|split].
  - intros Htr. unfold Dropout_forward, Py.bind, read_x. cbn [fst snd].
    by rewrite Htr.
  - intros Htr Hnd Hp Hdraws.
    destruct (Hrun 1%float Htr Hnd) as (out & w' & Hout & Hdata).
    { intros i Hi. rewrite Hp, (Hdraws i Hi). reflexivity. }
    exists out, w'. split; [done|]. rewrite Hdata.
    assert (Hid : forall l : list float,
              (fun v => (v * 1)%float) <$> l = l).
    { induction l as [|v l IH]; [done|]. simpl.
      f_equal; [apply F64_facts.mul_one_r | exact IH]. }
    rewrite Hid. unfold core.shape. by destruct (data (x_object w)).
  - intros Htr Hnd Hp.
    destruct (Hrun 0%float Htr Hnd) as (out & w' & Hout & Hdata).
    { intros i Hi. rewrite Hp. apply F64_facts.of_bool_times_zero. }
    exists out, w'. split; [done|]. rewrite Hdata. cbn [np.shape buffer].
    split; [done|]. split; [done|].
    intros Hfin. apply Forall_fmap. 
    eapply Forall_impl; [exact Hfin|]. intros v Hv. simpl.
    by apply F64_facts.mul_zero_r_finite.
Qed.

Lemma Dropout_forward_boundaries_witness :
  let w := world_of [2] [1.5; -2]%float 0.25 in
  exists out w',
    Dropout_forward false (layer true 0 false) w = (Ok out, w') /\
    data out = data (x_object w).
Proof.
  destruct (Dropout_forward_boundaries false (layer true 0 false)
              (world_of [2] [1.5; -2]%float 0.25) eq_refl) as (_ & Hp0 & _).
  apply Hp0; [reflexivity | discriminate | reflexivity
             | intros i _; reflexivity].
Defined.

(** C5, as stated, fails.  With [p = 1] an infinite input element comes out
    as NaN, not zero.  With [p = 0] an element whose draw is exactly 0.0
    (a value [np.random.rand] can return) comes out as 0.0, not as the
    input; and on a tensor of no dimension the training-mode call raises
    instead of returning. *)
Lemma Dropout_forward_boundary_failures :
  (returned_elements
     (Dropout_forward false (layer true 1 false)
        (world_of [1] [infinity] 0.5)) = Some [nan] /\
   F64.is_zero nan = false) /\
  (returned_elements
     (Dropout_forward false (layer true 0 false)
        (world_of [1] [1%float] 0)) = Some [0%float] /\
   PrimFloat.eqb 0 1 = false) /\
  returned_elements
    (Dropout_forward false (layer true 0 false)
       (world_of [] [1%float] 0.5)) = None.
Proof. repeat split. Qed.

(** C6. Within one training-mode [Dropout2d.forward] call on a 4D input,
    the mask stored by the layer carries, for each (batch, channel) pair,
    one keep/drop value (the 0.0 or 1.0 decided by that pair's single
    draw) at every spatial position, and every element of that feature map
    is multiplied by that one value and the scale. *)
Theorem Dropout2d_mask_is_per_channel (requires_grad_default : bool)
    (self : Dropout) (w : world) (N C H W : nat) :
  training (base self) = true ->
  core.shape (x_object w) = [N; C; H; W] ->
  wf (data (x_object w)) ->
  exists out w' m,
    Dropout2d_forward requires_grad_default self w = (Ok out, w') /\
    self_mask w' = Some m /\
    np.shape m = [N; C; H; W] /\
    np.shape (data out) = [N; C; H; W] /\
    forall n c, n < N -> c < C ->
      let keep := F64.of_bool (PrimFloat.ltb (p self) (draw w (n * C + c))) in
      forall h v, h < H -> v < W ->
        item m [n; c; h; v] = keep /\
        item (data out) [n; c; h; v]
        = if inplace self
          then (item (data (x_object w)) [n; c; h; v]
                * (keep * scale_of (p self)))%float
          else (item (data (x_object w)) [n; c; h; v] * keep
                * scale_of (p self))%float.
Proof.
  intros Htr Hsh Hwf. unfold core.shape in Hsh.
  unfold Dropout2d_forward, Py.bind, read_x. cbn [fst snd].
  rewrite Htr. unfold core.shape. rewrite Hsh. 
  rewrite decide_True by done. 
  unfold random.rand. cbn [random.generator world_random].
  change ([N; C; H; W] !!! 0) with N. change ([N; C; H; W] !!! 1) with C.
  set (g := rng w).
  set (draws := random.random_sample g <$> seq (random.position g) (size_of [N; C; 1; 1])).
  unfold keep_mask, map_array at 1 2. cbn [np.shape buffer].
  unfold Py.lift.
  set (mbuf := F64.of_bool <$> ((fun u : float => PrimFloat.ltb (p self) u) <$> draws)).
  destruct (broadcast_channels mbuf N C H W) as (st & Hb & Hoff).
  rewrite Hb. unfold write_mask, Py.modify.
  cbn [x_object random.set_generator world_random self_mask].
  set (m := mk_ndarray [N; C; H; W] (as_strided mbuf [N; C; H; W] st)).
  assert (Hm : wf m) by apply length_as_strided.
  assert (Hmsh : np.shape m = np.shape (data (x_object w))) by by rewrite Hsh.
  assert (Hitem : forall n c h v, n < N -> c < C -> h < H -> v < W ->
            in_range [n; c; h; v] [N; C; H; W] /\
            item m [n; c; h; v]
            = F64.of_bool (PrimFloat.ltb (p self) (draw w (n * C + c)))).
  { intros n c h v Hn Hc Hh Hv.
    split; [by repeat constructor|].
    unfold m. rewrite item_as_strided by (by repeat constructor).
    rewrite Hoff by done. unfold mbuf, draws.
    assert (Hlt : n * C + c < size_of [N; C; 1; 1]) by (simpl; nia).
    apply list_lookup_total_correct.
    by rewrite !list_lookup_fmap, lookup_seq_lt. }
  destruct (inplace self).
  - unfold multiply.
    rewrite (ufunc2_same_shape _ (data (x_object w))
               (times (scale_of (p self)) m))
      by (try apply wf_map_array; done).
    unfold write_x_data, Py.modify. cbn [x_object self_mask fst snd].
    eexists _, _, m. split; [reflexivity|]. cbn [self_mask].
    split; [reflexivity|]. split; [reflexivity|].
    split; [by rewrite <- Hsh|].
    intros n c Hn Hc; cbv zeta; intros h v Hh Hv.
    destruct (Hitem n c h v Hn Hc Hh Hv) as [Hr Hi].
    split; [exact Hi|].
    unfold set_data. cbn [data].
    rewrite item_zip_with by (try apply wf_map_array; try rewrite Hsh; done).
    unfold times. rewrite item_map_array by done. by rewrite Hi.
  - unfold multiply.
    rewrite (ufunc2_same_shape _ (data (x_object w)) m) by done.
    unfold Tensor_new. cbn [fst snd].
    eexists _, _, m. split; [reflexivity|]. cbn [self_mask set_next_id world_alloc].
    split; [reflexivity|]. split; [reflexivity|].
    split; [by rewrite <- Hsh|].
    intros n c Hn Hc; cbv zeta; intros h v Hh Hv.
    destruct (Hitem n c h v Hn Hc Hh Hv) as [Hr Hi].
    split; [exact Hi|].
    cbn [data]. unfold times.
    rewrite item_map_array.
    + rewrite item_zip_with by (try rewrite Hsh; done). by rewrite Hi.
    + unfold wf in *. cbn [buffer np.shape].
      rewrite length_zip_with, Hwf. fold m. rewrite Hm, Hmsh. lia.
    + simpl. by rewrite Hsh.
Qed.

Lemma Dropout2d_mask_is_per_channel_witness :
  let w := world_of [1; 2; 1; 2] [1; 2; 3; 4]%float 0.75 in
  exists out w' m,
    Dropout2d_forward false (layer true 0.5 false) w = (Ok out, w') /\
    self_mask w' = Some m /\
    np.shape m = [1; 2; 1; 2] /\
    np.shape (data out) = [1; 2; 1; 2] /\
    forall n c, n < 1 -> c < 2 ->
      let keep := F64.of_bool (PrimFloat.ltb 0.5 (draw w (n * 2 + c))) in
      forall h v, h < 1 -> v < 2 ->
        item m [n; c; h; v] = keep /\
        item (data out) [n; c; h; v]
        = (item (data (x_object w)) [n; c; h; v] * keep * scale_of 0.5)%float.
Proof.
  apply (Dropout2d_mask_is_per_channel false (layer true 0.5 false)
           (world_of [1; 2; 1; 2] [1; 2; 3; 4]%float 0.75) 1 2 1 2);
    reflexivity.
Defined.

End dropout_facts.

(** ** Checkpoints ([DLpy/core/serialization.py]) *)

Module serialization_facts.
Import np core serialization serialization_terms.

(** The state dict of the sample model holds the submodule's parameter
    and nothing of the submodule's buffer. *)
Lemma get_state_dict_net (weight running_mean : float) :
  get_state_dict (net weight running_mean)
  = {[ "bn.weight" := mk_ndarray [1] [weight] ]}.
Proof. reflexivity. Qed.

(** Whatever [load_checkpoint] succeeds in returning is what was passed to
    [save_checkpoint]: the epoch, the loss, and the additional data (an
    empty mapping when none was given). *)
Lemma save_then_load_returns {Optimizer OptState : Type}
    (optimizer_state_dict : Optimizer -> OptState)
    (optimizer_load_state_dict : Optimizer -> OptState -> result Optimizer)
    (truthy : OptState -> bool)
    (load_state_dict : Module -> state_dict -> result Module)
    (path : string) (saved live : Module)
    (saved_optimizer live_optimizer : option Optimizer)
    (ep : option Z) (ls : option float)
    (extra : option (gmap string pyobj))
    (fs : gmap string pickled) (r : restored) :
  (save_then_load optimizer_state_dict optimizer_load_state_dict truthy
     load_state_dict path saved live saved_optimizer live_optimizer
     ep ls extra fs).1 = Ok r ->
  r = mk_restored ep ls (default ∅ extra).
Proof.
  unfold save_then_load, save_checkpoint, load_checkpoint, pickle_load,
    model_load_state_dict, optimizer_load, Py.bind, Py.get, Py.ret.
  cbn [fst snd files model optimizer]. rewrite lookup_insert_eq.
  cbn [model_state_dict optimizer_state_dict_entry epoch loss
       additional_data].
  assert (Hdata : match extra with
                  | Some d => if decide (d = ∅) then ∅ else d
                  | None => ∅
                  end = default ∅ extra).
  { destruct extra as [d|]; [|done]. simpl.
    by destruct (decide (d = ∅)) as [->|]. }
  rewrite Hdata. clear Hdata. simpl.
  destruct (load_state_dict live (get_state_dict saved)) as [m'|e];
    simpl; [|done].
  destruct live_optimizer as [o|]; simpl; [|by intros [= <-]].
  destruct saved_optimizer as [o'|]; simpl; [|by intros [= <-]].
  destruct (truthy (optimizer_state_dict o')); simpl; [|by intros [= <-]].
  destruct (optimizer_load_state_dict o (optimizer_state_dict o')); simpl;
    [by intros [= <-] | done].
Qed.

Lemma save_then_load_returns_witness :
  mk_restored (Some 3%Z) (Some 0.5%float) ∅
  = mk_restored (Some 3%Z) (Some 0.5%float) (default ∅ None).
Proof.
  apply (save_then_load_returns no_optimizer_state no_optimizer_load
           (fun _ => true) Module_load_state_dict "ckpt"
           (net 1 1) (net 5 2) None None (Some 3%Z) (Some 0.5%float)
           None ∅).
  reflexivity.
Defined.

(** C8 at an input the code mishandles: a model whose submodule holds a
    buffer.  [get_state_dict] reads the model's own [_buffers] only, so two
    models that differ in the submodule's buffer write the same checkpoint,
    and loading it, by whatever [load_state_dict], into whatever live
    model, gives the same result for both: the saved buffer cannot come
    back.  With the loader the spec describes, a live model whose
    parameter and buffer differ from the saved ones gets the saved
    parameter and keeps its own buffer; epoch and loss come back as
    saved. *)
Lemma checkpoint_omits_submodule_buffers :
  (forall (Optimizer OptState : Type)
      (optimizer_state_dict : Optimizer -> OptState)
      (optimizer_load_state_dict : Optimizer -> OptState -> result Optimizer)
      (truthy : OptState -> bool)
      (load_state_dict : Module -> state_dict -> result Module)
      (path : string) (live : Module)
      (saved_optimizer live_optimizer : option Optimizer)
      (epoch : option Z) (loss : option float)
      (additional_data : option (gmap string pyobj))
      (files : gmap string pickled),
     save_then_load optimizer_state_dict optimizer_load_state_dict truthy
       load_state_dict path (net 1 1) live saved_optimizer live_optimizer
       epoch loss additional_data files
     = save_then_load optimizer_state_dict optimizer_load_state_dict truthy
         load_state_dict path (net 1 2) live saved_optimizer live_optimizer
         epoch loss additional_data files) /\
  named_buffers (net 1 1) <> named_buffers (net 1 2) /\
  (let r := save_then_load no_optimizer_state no_optimizer_load
              (fun _ => true) Module_load_state_dict "ckpt"
              (net 1 1) (net 5 2) None None (Some 3%Z) (Some 0.5%float)
              None ∅ in
   r.1 = Ok (mk_restored (Some 3%Z) (Some 0.5%float) ∅) /\
   model r.2 = net 1 2).
Proof.
  split; [|split].
  - intros. unfold save_then_load, save_checkpoint. cbn [snd files model].
    by rewrite !get_state_dict_net.
  - intros Heq. apply (f_equal (first_buffer_is 1)) in Heq.
    vm_compute in Heq. discriminate.
  - split; vm_compute; reflexivity.
Qed.

End serialization_facts.

(* ===================================================================== *)
(** * Further properties                                                  *)
(* ===================================================================== *)

(** ** Samplers *)

Module samplers_more.
Import random samplers samplers_terms.

Lemma swap_Permutation (x : list nat) (i j : nat) :
  i < length x -> j < length x -> swap x i j ≡ₚ x.
Proof.
  intros Hi Hj. unfold swap.
  apply Permutation_insert_swap; by apply list_lookup_lookup_total_lt.
Qed.

Lemma length_swap (x : list nat) (i j : nat) :
  length (swap x i j) = length x.
Proof. unfold swap. by rewrite !length_insert. Qed.

(** The shuffle rearranges its argument and takes one draw per step. *)
Lemma shuffle_from_Permutation (i : nat) (x : list nat) (g : RandomState) :
  i < length x \/ i = 0 ->
  exists l, shuffle_from i x g = (Ok l, advance i g) /\ l ≡ₚ x.
Proof.
  revert x g. induction i as [|i IH]; intros x g Hi.
  - exists x. split; [|done]. destruct g. unfold advance. simpl.
    by rewrite Nat.add_0_r.
  - destruct Hi as [Hi|]; [|done].
    cbn [shuffle_from]. unfold Py.bind, interval.
    cbn [generator set_generator generator_random].
    set (j := random_interval g (position g) (S i) mod (S i + 1)).
    assert (Hj : j < length x).
    { pose proof (Nat.mod_upper_bound
        (random_interval g (position g) (S i)) (S i + 1)). unfold j. lia. }
    destruct (IH (swap x (S i) j) (advance 1 g)) as (l & Hl & Hperm).
    { left. rewrite length_swap. lia. }
    exists l. rewrite Hl. split.
    + f_equal. destruct g. unfold advance. simpl. f_equal. lia.
    + by rewrite Hperm, swap_Permutation.
Qed.

Lemma RandomSampler_iter_run (ds : Sized) (g : RandomState) :
  exists indices,
    RandomSampler_iter (mk_Sampler (Some ds)) g
    = (Ok indices, advance (len ds - 1) g) /\
    indices ≡ₚ seq 0 (len ds).
Proof.
  unfold RandomSampler_iter, permutation, Py.bind. simpl.
  destruct (shuffle_from_Permutation (len ds - 1) (seq 0 (len ds)) g)
    as (l & Hl & Hperm).
  { rewrite length_seq. lia. }
  exists l. by rewrite Hl.
Qed.

(** X1. Whatever the generator delivers, [RandomSampler.__iter__] over a
    data source of size N yields a permutation of 0, ..., N-1: every
    index that [SequentialSampler.__iter__] yields, once each.
    [SequentialSampler.__iter__] yields them in increasing order and
    leaves the generator alone. *)
Theorem RandomSampler_iter_permutation (ds : Sized) (g : RandomState) :
  exists indices,
    (RandomSampler_iter (mk_Sampler (Some ds)) g).1 = Ok indices /\
    indices ≡ₚ seq 0 (len ds) /\
    NoDup indices /\
    SequentialSampler_iter (mk_Sampler (Some ds)) g
    = (Ok (seq 0 (len ds)), g).
Proof.
  destruct (RandomSampler_iter_run ds g) as (l & Hl & Hperm).
  exists l. rewrite Hl. split; [done|]. split; [done|]. split; [|done].
  rewrite Hperm. apply NoDup_seq.
Qed.

(** X2. For both samplers over a present data source, an iteration yields
    as many indices as [__len__] returns. *)
Theorem samplers_iter_length (ds : Sized) (g : RandomState) :
  let self := mk_Sampler (Some ds) in
  length <$> yielded (SequentialSampler_iter self g) = Some (len ds) /\
  (SequentialSampler_len self g).1 = Ok (len ds) /\
  length <$> yielded (RandomSampler_iter self g) = Some (len ds) /\
  (RandomSampler_len self g).1 = Ok (len ds).
Proof.
  simpl. split; [unfold yielded; simpl; by rewrite length_seq|].
  split; [done|]. split; [|done].
  destruct (RandomSampler_iter_run ds g) as (l & Hl & Hperm).
  unfold yielded. rewrite Hl. simpl. by rewrite Hperm, length_seq.
Qed.

End samplers_more.

(** ** Dropout *)

Module dropout_more.
Import np np_facts core dropout dropout_terms dropout_more_terms.

Lemma SFcompare_antisym (x y : spec_float) :
  SFcompare y x = CompOpp <$> SFcompare x y.
Proof.
  destruct x as [sx|sx| |sx mx ex], y as [sy|sy| |sy my ey]; simpl;
    try reflexivity;
    try (destruct sx; reflexivity); try (destruct sy; reflexivity);
    try (destruct sx, sy; reflexivity).
  destruct sx, sy; try reflexivity; f_equal;
    rewrite (Z.compare_antisym ey ex);
    destruct (ey ?= ex)%Z eqn:He; simpl; try reflexivity;
    change (Pos.compare_cont Eq ?a ?b) with (Pos.compare a b);
    rewrite (Pos.compare_antisym my mx); by destruct (my ?= mx)%positive.
Qed.

Lemma SFcompare_None (x y : spec_float) :
  SFcompare x y = None <-> x = S754_nan \/ y = S754_nan.
Proof.
  destruct x as [sx|sx| |sx mx ex], y as [sy|sy| |sy my ey]; simpl;
    (split; [intros Hc; try discriminate Hc; auto
            | intros [Hc|Hc]; try discriminate Hc; auto]).
Qed.

(** [not (x < y)] for floats: one of them is NaN, or [y <= x]. *)
Lemma ltb_false_iff (x y : float) :
  PrimFloat.ltb x y = false <->
  is_nan x = true \/ is_nan y = true \/ PrimFloat.leb y x = true.
Proof.
  rewrite ltb_spec, leb_spec. unfold SFltb, SFleb, is_nan.
  rewrite (SFcompare_antisym (Prim2SF x) (Prim2SF y)).
  destruct (SFcompare (Prim2SF x) (Prim2SF y)) as [c|] eqn:Hc.
  - assert (Hx : Prim2SF x <> S754_nan /\ Prim2SF y <> S754_nan).
    { split; intros Hn; rewrite Hn in Hc;
        [|destruct (Prim2SF x)]; discriminate. }
    destruct Hx as [Hx Hy].
    destruct (Prim2SF x), (Prim2SF y); try done;
      destruct c; simpl; split; intros H; try done; auto;
      destruct H as [H|[H|H]]; done.
  - apply SFcompare_None in Hc. simpl. split; [intros _|done].
    destruct Hc as [-> | ->]; auto.
Qed.

(** X3. [Dropout.__init__] and [Dropout2d.__init__] build the layer, with
    the given [p] and [inplace], exactly when [p] is a NaN or lies in
    the closed interval from 0 to 1, and raise [ValueError] otherwise:
    both comparisons of the guard are false on a NaN, so a NaN
    probability is accepted. *)
Theorem Dropout_init_accepts (super_init : Module) (p : float)
    (inplace : bool) :
  Dropout_init super_init p inplace
  = (if (is_nan p || (PrimFloat.leb 0 p && PrimFloat.leb p 1))%bool
     then Ok (mk_Dropout super_init p inplace)
     else Raise (ValueError "dropout probability has to be between 0 and 1")).
Proof.
  unfold Dropout_init.
  pose proof (ltb_false_iff p 0) as Hlow.
  pose proof (ltb_false_iff 1 p) as Hhigh.
  change (is_nan 0) with false in Hlow.
  change (is_nan 1) with false in Hhigh.
  destruct (PrimFloat.ltb p 0), (PrimFloat.ltb 1 p), (is_nan p),
    (PrimFloat.leb 0 p), (PrimFloat.leb p 1); simpl; try reflexivity;
    exfalso; intuition congruence.
Qed.

Lemma seq_shift_fmap {B} (f : nat -> B) (j n : nat) :
  f <$> seq j n = (fun i => f (j + i)) <$> seq 0 n.
Proof.
  apply list_eq. intros i. rewrite !list_lookup_fmap.
  destruct (decide (i < n)).
  - by rewrite !lookup_seq_lt.
  - by rewrite !lookup_seq_ge by lia.
Qed.

(** What a training-mode [Dropout.forward] call returns and leaves. *)
Lemma Dropout_forward_run (requires_grad_default : bool) (self : Dropout)
    (w : world) :
  training (base self) = true ->
  core.shape (x_object w) <> [] ->
  wf (data (x_object w)) ->
  let x := x_object w in
  let g := random.advance (size_of (core.shape x)) (rng w) in
  Dropout_forward requires_grad_default self w
  = if inplace self
    then (Ok (set_data x (dropped (p self) w)),
          mk_world (set_data x (dropped (p self) w)) (self_mask w) g
            (fresh w))
    else (Ok (mk_Tensor (dropped (p self) w) None (requires_grad x)
                (fresh w)),
          mk_world x (self_mask w) g (fresh w + 1)%Z).
Proof.
  intros Htr Hnd Hwf. cbv zeta.
  unfold Dropout_forward, Py.bind, read_x. cbn [fst snd]. rewrite Htr.
  destruct (core.shape (x_object w)) as [|d0 ds] eqn:Hsh; [done|].
  rewrite <- Hsh. clear Hsh d0 ds Hnd.
  unfold random.rand. cbn [random.generator world_random].
  unfold Py.lift, multiply, core.shape in *.
  set (n := size_of (np.shape (data (x_object w)))).
  set (mask := times (scale_of (p self)) (keep_mask (p self) _)).
  assert (Hmask : wf mask).
  { unfold wf, mask. simpl. by rewrite !length_fmap, length_seq. }
  rewrite (ufunc2_same_shape _ (data (x_object w)) mask) by done.
  assert (Hbuf : buffer mask = multiplier (p self) w <$> seq 0 n).
  { unfold mask, times, keep_mask, map_array. cbn [buffer].
    rewrite <- !list_fmap_compose.
    rewrite (seq_shift_fmap _ (random.position (rng w)) n).
    reflexivity. }
  rewrite Hbuf. fold n. unfold dropped. fold n.
  destruct (inplace self); reflexivity.
Qed.

Lemma wf_dropped (p : float) (w : world) :
  wf (data (x_object w)) -> wf (dropped p w).
Proof.
  unfold wf, dropped. simpl. intros Hwf.
  rewrite length_zip_with, length_fmap, length_seq. lia.
Qed.



(** X5. A training-mode [Dropout.forward] call on a tensor of at least
    one dimension returns a tensor with the input's [requires_grad] and
    leaves the layer's state alone.  With [inplace] the returned tensor is
    the input object itself, whose data the call has overwritten, and no
    tensor is created; without it the input object is left as it was and
    the result is a newly created tensor. *)
Theorem Dropout_forward_aliasing (requires_grad_default : bool)
    (self : Dropout) (w : world) :
  training (base self) = true ->
  core.shape (x_object w) <> [] ->
  wf (data (x_object w)) ->
  exists out w',
    Dropout_forward requires_grad_default self w = (Ok out, w') /\
    requires_grad out = requires_grad (x_object w) /\
    self_mask w' = self_mask w /\
    if inplace self
    then x_object w' = out /\ py_id out = py_id (x_object w) /\
         fresh w' = fresh w
    else x_object w' = x_object w /\ py_id out = fresh w /\
         fresh w' = (fresh w + 1)%Z.
Proof.
  intros Htr Hnd Hwf.
  rewrite (Dropout_forward_run _ _ _ Htr Hnd Hwf).
  destruct (inplace self); eexists _, _; (split; [reflexivity|]);
    repeat split.
Qed.

Lemma Dropout_forward_aliasing_witness :
  let w := world_of [2] [1.5; -2]%float 0.75 in
  exists out w',
    Dropout_forward false (layer true 0.5 true) w = (Ok out, w') /\
    requires_grad out = requires_grad (x_object w) /\
    self_mask w' = self_mask w /\
    x_object w' = out /\ py_id out = py_id (x_object w) /\
    fresh w' = fresh w.
Proof.
  apply (Dropout_forward_aliasing false (layer true 0.5 true)
           (world_of [2] [1.5; -2]%float 0.75));
    [reflexivity | discriminate | reflexivity].
Defined.



Lemma SF64mul_one_l (x : spec_float) :
  valid_binary x = true -> SF64mul (Prim2SF 1%float) x = x.
Proof.
  intros Hv.
  change (Prim2SF 1%float) with (S754_finite false 4503599627370496 (-52)).
  destruct x as [s|s| |s m e]; try reflexivity.
  unfold SF64mul, SFmul. rewrite Z.add_comm. cbn [xorb].
  now apply F64_facts.binary_round_aux_shift52.
Qed.

Lemma mul_one_l (x : float) : (1 * x)%float = x.
Proof.
  apply Prim2SF_inj. rewrite mul_spec. apply SF64mul_one_l, Prim2SF_valid.
Qed.

(** Multiplying by a 0.0 or 1.0 first or by the scale first gives the
    same float. *)
Lemma mul_of_bool_assoc (x s : float) (b : bool) :
  (x * (F64.of_bool b * s))%float = (x * F64.of_bool b * s)%float.
Proof.
  destruct b; simpl.
  - by rewrite mul_one_l, F64_facts.mul_one_r.
  - apply Prim2SF_inj. rewrite !mul_spec.
    change (Prim2SF 0%float) with (S754_zero false).
    destruct (Prim2SF x) as [sx|sx| |sx mx ex],
             (Prim2SF s) as [ss|ss| |ss ms es];
      try reflexivity;
      try (destruct sx; reflexivity); try (destruct ss; reflexivity);
      try (destruct sx, ss; reflexivity).
Qed.

(** What a training-mode [Dropout2d.forward] call on a 4D input returns
    and leaves. *)
Lemma Dropout2d_forward_run (requires_grad_default : bool) (self : Dropout)
    (w : world) (N C H W : nat) :
  training (base self) = true ->
  core.shape (x_object w) = [N; C; H; W] ->
  wf (data (x_object w)) ->
  let x := x_object w in
  let g := random.advance (N * C) (rng w) in
  exists m,
    broadcast_to
      (keep_mask (p self)
         (mk_ndarray [N; C; 1; 1]
            (random.random_sample (rng w)
               <$> seq (random.position (rng w)) (N * C))))
      [N; C; H; W] = Ok m /\
    wf m /\ np.shape m = [N; C; H; W] /\
    Forall (fun v => exists b, v = F64.of_bool b) (buffer m) /\
    Dropout2d_forward requires_grad_default self w
    = if inplace self
      then
        let d := mk_ndarray [N; C; H; W]
                   (zip_with PrimFloat.mul (buffer (data x))
                      (buffer (times (scale_of (p self)) m))) in
        (Ok (set_data x d), mk_world (set_data x d) (Some m) g (fresh w))
      else
        let d := times (scale_of (p self))
                   (mk_ndarray [N; C; H; W]
                      (zip_with PrimFloat.mul (buffer (data x)) (buffer m))) in
        (Ok (mk_Tensor d None (requires_grad x) (fresh w)),
         mk_world x (Some m) g (fresh w + 1)%Z).
Proof.
  intros Htr Hsh Hwf. cbv zeta. unfold core.shape in Hsh.
  set (draws := mk_ndarray [N; C; 1; 1]
                  (random.random_sample (rng w)
                     <$> seq (random.position (rng w)) (N * C))).
  set (mbuf := F64.of_bool
                 <$> ((fun u => PrimFloat.ltb (p self) u) <$> buffer draws)).
  destruct (broadcast_channels mbuf N C H W) as (st & Hb & _).
  set (m := mk_ndarray [N; C; H; W] (as_strided mbuf [N; C; H; W] st)) in *.
  assert (Hbc : broadcast_to (keep_mask (p self) draws) [N; C; H; W] = Ok m)
    by exact Hb.
  assert (Hm : wf m) by apply length_as_strided.
  exists m. split; [exact Hbc|]. split; [done|]. split; [done|]. split.
  { unfold m, as_strided. cbn [buffer]. apply Forall_fmap, Forall_forall.
    intros o _. simpl. rewrite list_lookup_total_alt.
    destruct (mbuf !! _) as [v|] eqn:Hv; simpl; [|by exists false].
    unfold mbuf in Hv. rewrite list_lookup_fmap in Hv.
    destruct (_ !! _) as [b|]; [|done]. injection Hv as <-. by exists b. }
  unfold Dropout2d_forward, Py.bind, read_x. cbn [fst snd].
  rewrite Htr. unfold core.shape. rewrite Hsh.
  rewrite decide_True by done.
  unfold random.rand. cbn [random.generator world_random].
  change ([N; C; H; W] !!! 0) with N. change ([N; C; H; W] !!! 1) with C.
  assert (Hsize : size_of [N; C; 1; 1] = N * C) by (simpl; lia).
  rewrite Hsize. fold draws. unfold Py.lift. rewrite Hbc.
  unfold write_mask, write_x_data, Py.modify, multiply, Tensor_new.
  cbn [x_object random.set_generator world_random self_mask fst snd rng
       fresh next_id set_next_id world_alloc].
  destruct (inplace self).
  - rewrite (ufunc2_same_shape _ (data (x_object w))
               (times (scale_of (p self)) m))
      by (try apply wf_map_array; done).
    by rewrite Hsh.
  - rewrite (ufunc2_same_shape _ (data (x_object w)) m) by done.
    by rewrite Hsh.
Qed.

(** X7. A training-mode [Dropout2d.forward] call on an input of shape
    (N, C, H, W) takes N * C draws from the generator, whatever H and W
    are, replaces the layer's [mask] attribute by an array of the input's
    shape, and returns a tensor of the input's shape with the input's
    [requires_grad].  With [inplace] the returned tensor is the input
    object itself and no tensor is created; without it the input object
    is left as it was and the result is a newly created tensor. *)
Theorem Dropout2d_forward_effects (requires_grad_default : bool)
    (self : Dropout) (w : world) (N C H W : nat) :
  training (base self) = true ->
  core.shape (x_object w) = [N; C; H; W] ->
  wf (data (x_object w)) ->
  exists out w' m,
    Dropout2d_forward requires_grad_default self w = (Ok out, w') /\
    core.shape out = [N; C; H; W] /\
    requires_grad out = requires_grad (x_object w) /\
    self_mask w' = Some m /\ np.shape m = [N; C; H; W] /\
    rng w' = random.advance (N * C) (rng w) /\
    if inplace self
    then x_object w' = out /\ py_id out = py_id (x_object w) /\
         fresh w' = fresh w
    else x_object w' = x_object w /\ py_id out = fresh w /\
         fresh w' = (fresh w + 1)%Z.
Proof.
  intros Htr Hsh Hwf.
  destruct (Dropout2d_forward_run requires_grad_default self w N C H W
              Htr Hsh Hwf) as (m & _ & Hm & Hmsh & _ & Hrun).
  rewrite Hrun.
  destruct (inplace self); eexists _, _, m; (split; [reflexivity|]);
    repeat split; done.
Qed.

Lemma Dropout2d_forward_effects_witness :
  let w := world_of [1; 2; 1; 2] [1; 2; 3; 4]%float 0.75 in
  exists out w' m,
    Dropout2d_forward false (layer true 0.5 false) w = (Ok out, w') /\
    core.shape out = [1; 2; 1; 2] /\
    requires_grad out = requires_grad (x_object w) /\
    self_mask w' = Some m /\ np.shape m = [1; 2; 1; 2] /\
    rng w' = random.advance 2 (rng w) /\
    x_object w' = x_object w /\ py_id out = fresh w /\
    fresh w' = (fresh w + 1)%Z.
Proof.
  apply (Dropout2d_forward_effects false (layer true 0.5 false)
           (world_of [1; 2; 1; 2] [1; 2; 3; 4]%float 0.75) 1 2 1 2);
    reflexivity.
Defined.

(** X8. On a 4D input in training mode, [Dropout2d.forward] computes
    the same values with and without [inplace]: the two calls, which
    multiply by the mask and the scale in different orders, return
    tensors with equal data (a NaN in the one is a NaN in the other),
    store the same mask and leave the generator in the same state. *)
Theorem Dropout2d_inplace_same_values (requires_grad_default : bool)
    (self : Dropout) (w : world) (N C H W : nat) :
  training (base self) = true ->
  core.shape (x_object w) = [N; C; H; W] ->
  wf (data (x_object w)) ->
  exists out out' w1 w2,
    Dropout2d_forward requires_grad_default
      (mk_Dropout (base self) (p self) true) w = (Ok out, w1) /\
    Dropout2d_forward requires_grad_default
      (mk_Dropout (base self) (p self) false) w = (Ok out', w2) /\
    data out = data out' /\
    self_mask w1 = self_mask w2 /\
    rng w1 = rng w2.
Proof.
  intros Htr Hsh Hwf.
  destruct (Dropout2d_forward_run requires_grad_default
              (mk_Dropout (base self) (p self) true) w N C H W
              Htr Hsh Hwf) as (m & Hb & Hm & Hmsh & Hbool & Hrun).
  destruct (Dropout2d_forward_run requires_grad_default
              (mk_Dropout (base self) (p self) false) w N C H W
              Htr Hsh Hwf) as (m' & Hb' & _ & _ & _ & Hrun').
  rewrite Hrun, Hrun'. cbn [inplace p].
  eexists _, _, _, _. split; [reflexivity|]. split; [reflexivity|].
  cbn [data set_data self_mask rng].
  cbn [p] in Hb, Hb'.
  assert (Hmm : m' = m) by congruence.
  subst m'. split; [|done].
  unfold times, map_array. cbn [np.shape buffer]. f_equal.
  clear Hrun Hrun' Hm Hmsh.
  generalize (buffer (data (x_object w))).
  induction Hbool as [|v ms [b ->] _ IH]; intros [|x xs]; simpl; [done..|].
  f_equal; [apply mul_of_bool_assoc | apply IH].
Qed.

Lemma Dropout2d_inplace_same_values_witness :
  let w := world_of [1; 2; 1; 2] [1; 2; 3; 4]%float 0.75 in
  exists out out' w1 w2,
    Dropout2d_forward false (layer true 0.5 true) w = (Ok out, w1) /\
    Dropout2d_forward false (layer true 0.5 false) w = (Ok out', w2) /\
    data out = data out' /\
    self_mask w1 = self_mask w2 /\
    rng w1 = rng w2.
Proof.
  apply (Dropout2d_inplace_same_values false (layer true 0.5 false)
           (world_of [1; 2; 1; 2] [1; 2; 3; 4]%float 0.75) 1 2 1 2);
    reflexivity.
Defined.

End dropout_more.

(** ** Transposition and comparisons *)

Module matrix_more.
Import Py np np_facts core matrix matrix_terms transpose_facts
  matrix_more_terms.

Section Forward.
Context {A : Type} `{!Inhabited A}.
Variable requires_grad_default : bool.

(** What a [Transpose.forward] call returns and leaves, whether or not
    the transposition succeeds. *)
Lemma Transpose_forward_run (x : Tensor A + ndarray A)
    (axes : option (list Z)) (s : call_state A) :
  let xt := input_tensor requires_grad_default x s in
  let n := match x with inl _ => fresh s | inr _ => (fresh s + 1)%Z end in
  let c := forward_ctx xt axes (ctx s) in
  Transpose_forward requires_grad_default x axes s
  = match transpose (input_array x) axes with
    | Ok t => (Ok (mk_Tensor t None requires_grad_default n),
               mk_call_state c (n + 1)%Z)
    | Raise e => (Raise e, mk_call_state c n)
    end.
Proof.
  cbv zeta. unfold Transpose_forward, forward_ctx, Py.bind.
  destruct x as [t|a]; simpl.
  - destruct axes as [ax|]; simpl;
      [destruct (transpose (data t) (Some ax))
      |destruct (transpose (data t) None)]; reflexivity.
  - destruct axes as [ax|]; simpl;
      [destruct (transpose a (Some ax))
      |destruct (transpose a None)]; reflexivity.
Qed.

Lemma data_input_tensor (x : Tensor A + ndarray A) (s : call_state A) :
  data (input_tensor requires_grad_default x s) = input_array x.
Proof. by destruct x. Qed.

Lemma forward_ctx_axes (xt : Tensor A) (axes : option (list Z))
    (c : Context A) :
  saved_arguments (forward_ctx xt axes c) !! "axes" = Some axes.
Proof.
  unfold forward_ctx. simpl.
  apply lookup_union_Some_l, lookup_singleton_eq.
Qed.

Lemma canonical_accepted (nd : nat) (axes : option (list Z)) :
  canonical_axes nd axes -> accepted_axes nd axes.
Proof.
  destruct axes as [ax|]; [|done]. intros [<- Hperm].
  by apply canonical_valid_axes.
Qed.

Lemma axes_order_Permutation (nd : nat) (axes : option (list Z)) :
  accepted_axes nd axes -> axes_order nd axes ≡ₚ seq 0 nd.
Proof.
  destruct axes as [ax|]; simpl.
  - by intros [_ Hperm].
  - intros _. apply reverse_Permutation.
Qed.

Lemma transpose_accepted (a : ndarray A) (axes : option (list Z)) :
  accepted_axes (ndim a) axes ->
  transpose a axes = Ok (permute_axes a (axes_order (ndim a) axes)).
Proof.
  destruct axes as [ax|]; simpl.
  - apply transpose_valid.
  - reflexivity.
Qed.


Lemma in_range_lookup (idx sh : list nat) (k : nat) :
  in_range idx sh -> k < length sh -> idx !!! k < sh !!! k.
Proof.
  intros Hr Hk. unfold in_range in Hr.
  destruct (lookup_lt_is_Some_2 sh k Hk) as [n Hn].
  destruct (Forall2_lookup_r _ _ _ _ _ Hr Hn) as (i & Hi & Hlt).
  by rewrite (list_lookup_total_correct _ _ _ Hi),
             (list_lookup_total_correct _ _ _ Hn).
Qed.

Lemma in_range_permute (idx sh p : list nat) :
  in_range idx sh -> Forall (fun k => k < length sh) p ->
  in_range ((fun k => idx !!! k) <$> p) ((fun k => sh !!! k) <$> p).
Proof.
  intros Hr Hp. unfold in_range. apply Forall2_fmap, Forall_Forall2_diag.
  eapply Forall_impl; [exact Hp|]. intros k Hk. by apply in_range_lookup.
Qed.

Lemma Permutation_seq_bound (p : list nat) (n : nat) :
  p ≡ₚ seq 0 n -> Forall (fun k => k < n) p.
Proof.
  intros Hp. apply Forall_forall. intros k Hk.
  rewrite Hp in Hk. apply elem_of_seq in Hk. lia.
Qed.

Lemma item_permute_axes (a : ndarray A) (p idx : list nat) :
  p ≡ₚ seq 0 (ndim a) -> in_range idx (np.shape a) ->
  item (permute_axes a p) ((fun k => idx !!! k) <$> p) = item a idx.
Proof.
  intros Hp Hr. unfold permute_axes.
  rewrite item_as_strided
    by (apply in_range_permute; [done | by apply Permutation_seq_bound]).
  unfold item. f_equal. apply (offset_permute p idx _ (ndim a)); [done| |].
  - by rewrite (Forall2_length _ _ _ Hr).
  - apply length_strides.
Qed.

(** X9. With no axes, or with axes that are a permutation of the input's
    axes (negative entries counting from the end), [Transpose.forward]
    returns a tensor whose dimension [k] is the input's dimension
    [order[k]] and whose element at the index [idx] taken in that order
    is the input's element at [idx]; with no axes the order is the
    reversed one. *)
Theorem Transpose_forward_elements (x : Tensor A + ndarray A)
    (axes : option (list Z)) (s : call_state A) :
  accepted_axes (ndim (input_array x)) axes ->
  let a := input_array x in
  let order := axes_order (ndim a) axes in
  exists out s',
    Transpose_forward requires_grad_default x axes s = (Ok out, s') /\
    core.shape out = (fun k => np.shape a !!! k) <$> order /\
    forall idx, in_range idx (np.shape a) ->
      item (data out) ((fun k => idx !!! k) <$> order) = item a idx.
Proof.
  intros Hacc. cbv zeta.
  rewrite Transpose_forward_run, (transpose_accepted _ _ Hacc).
  eexists _, _. split; [reflexivity|]. split; [reflexivity|].
  intros idx Hr. cbn [data].
  apply item_permute_axes; [|done]. by apply axes_order_Permutation.
Qed.

Lemma transpose_canonical_inverse (a : ndarray A) (axes : option (list Z)) :
  wf a -> canonical_axes (ndim a) axes ->
  exists t, transpose a axes = Ok t /\ contribution axes t = Ok a.
Proof.
  intros Hwf Hcan. destruct axes as [ax|]; simpl in *.
  - destruct Hcan as [Hlen Hperm]. by apply transpose_argsort_involutive.
  - by apply transpose_reversal_involutive.
Qed.

(** What [Transpose.backward] does with a context that holds one tensor
    and the axes. *)
Lemma Transpose_backward_run (c : Context A) (xt : Tensor A)
    (axes : option (list Z)) (grad_output : ndarray A)
    (grad_dict : gmap Z (ndarray A)) :
  saved_tensors c = [xt] ->
  saved_arguments c !! "axes" = Some axes ->
  Transpose_backward c grad_output grad_dict
  = if requires_grad xt
    then match contribution axes grad_output with
         | Ok g => (Ok tt, <[py_id xt := g]> grad_dict)
         | Raise e => (Raise e, grad_dict)
         end
    else (Ok tt, grad_dict).
Proof.
  intros Hx Hax. unfold Transpose_backward. rewrite Hx, Hax.
  destruct (requires_grad xt); [|reflexivity].
  unfold contribution, Py.bind, Py.lift.
  destruct axes as [ax|]; simpl.
  - by destruct (transpose grad_output (Some (Z.of_nat <$> argsort ax))).
  - by destruct (transpose grad_output None).
Qed.

(** X10. For a well-formed input and no axes or axes written with the
    numbers 0, ..., n-1, [Transpose.forward] succeeds, and
    [Transpose.backward], run on the context that call filled and handed
    the output's own data as the gradient, stores the input's data under
    the identity of the saved tensor if that tensor requires a gradient,
    and changes nothing otherwise. *)
Theorem Transpose_forward_then_backward (x : Tensor A + ndarray A)
    (axes : option (list Z)) (s : call_state A) :
  wf (input_array x) ->
  canonical_axes (ndim (input_array x)) axes ->
  exists out s' xt,
    Transpose_forward requires_grad_default x axes s = (Ok out, s') /\
    saved_tensors (ctx s') = [xt] /\
    data xt = input_array x /\
    forall grad_dict,
      Transpose_backward (ctx s') (data out) grad_dict
      = (Ok tt,
         if requires_grad xt
         then <[py_id xt := input_array x]> grad_dict
         else grad_dict).
Proof.
  intros Hwf Hcan.
  destruct (transpose_canonical_inverse _ _ Hwf Hcan) as (t & Ht & Hback).
  rewrite Transpose_forward_run, Ht.
  eexists _, _, _. split; [reflexivity|]. cbn [ctx data].
  split; [reflexivity|]. split; [apply data_input_tensor|].
  intros grad_dict.
  erewrite Transpose_backward_run;
    [|reflexivity|apply forward_ctx_axes].
  rewrite Hback. by destruct (requires_grad _).
Qed.

Lemma transpose_shape_only (a b : ndarray A) (axes : option (list Z))
    (t : ndarray A) :
  np.shape b = np.shape a ->
  transpose a axes = Ok t ->
  exists t', transpose b axes = Ok t' /\ np.shape t' = np.shape t.
Proof.
  unfold transpose, ndim. intros Hsh. rewrite Hsh.
  destruct axes as [ax|]; simpl.
  - destruct (decide (length ax = length (np.shape a))); [|done]. simpl.
    destruct (transpose_permutation _ _ _ _) as [p|]; [|done]. simpl.
    intros [= <-]. eexists. split; [reflexivity|].
    unfold permute_axes. simpl. by rewrite Hsh.
  - intros [= <-]. eexists. split; [reflexivity|].
    unfold permute_axes. simpl. by rewrite Hsh.
Qed.

Lemma contribution_shape_only (a b : ndarray A) (axes : option (list Z))
    (t : ndarray A) :
  np.shape b = np.shape a ->
  contribution axes a = Ok t ->
  exists t', contribution axes b = Ok t' /\ np.shape t' = np.shape t.
Proof.
  unfold contribution. destruct axes; apply transpose_shape_only.
Qed.

(** X11. For a tensor that requires a gradient and no axes or axes
    written with the numbers 0, ..., n-1, [Transpose.backward], handed
    any gradient of the shape of the forward output, succeeds and stores
    under the tensor's identity an array of the tensor's shape. *)
Theorem Transpose_gradient_has_input_shape (x : Tensor A)
    (axes : option (list Z)) (s : call_state A) :
  canonical_axes (ndim (data x)) axes ->
  requires_grad x = true ->
  exists out s',
    Transpose_forward requires_grad_default (inl x) axes s
    = (Ok out, s') /\
    forall grad_output grad_dict,
      np.shape grad_output = core.shape out ->
      exists g,
        Transpose_backward (ctx s') grad_output grad_dict
        = (Ok tt, <[py_id x := g]> grad_dict) /\
        np.shape g = core.shape x.
Proof.
  intros Hcan Hreq.
  set (a := mk_ndarray (core.shape x)
              (replicate (size_of (core.shape x)) inhabitant) : ndarray A).
  assert (Hwf : wf a) by (unfold wf, a; simpl; apply length_replicate).
  destruct (transpose_canonical_inverse a axes Hwf Hcan)
    as (t & Ht & Hback).
  destruct (transpose_shape_only a (data x) axes t eq_refl Ht)
    as (t' & Ht' & Hsh).
  rewrite Transpose_forward_run. cbn [input_array]. rewrite Ht'.
  eexists _, _. split; [reflexivity|].
  intros grad_output grad_dict Hg. cbn [ctx].
  erewrite Transpose_backward_run;
    [|reflexivity|apply forward_ctx_axes].
  cbn [input_tensor]. rewrite Hreq.
  destruct (contribution_shape_only t grad_output axes a) as (g & -> & Hgsh);
    [by rewrite Hg, <- Hsh | done |].
  by exists g.
Qed.

(** X12. [Transpose.backward] leaves the gradient map as it was whenever
    it raises, and whenever the saved tensor does not require a gradient;
    in every case the entries under other keys than the saved tensor's
    identity are left as they were. *)
Theorem Transpose_backward_frame (c : Context A) (grad_output : ndarray A)
    (grad_dict : gmap Z (ndarray A)) :
  let r := Transpose_backward c grad_output grad_dict in
  (is_ok r.1 = false -> r.2 = grad_dict) /\
  (forall xt, saved_tensors c = [xt] ->
     (requires_grad xt = false -> r.2 = grad_dict) /\
     forall key, key <> py_id xt -> r.2 !! key = grad_dict !! key).
Proof.
  cbv zeta. split.
  - unfold Transpose_backward.
    destruct (saved_tensors c) as [|xt [|]]; [done| |done].
    match goal with
    | |- context [match ?l with Some _ => _ | None => raise _ end] =>
        destruct l as [axes|]; [|done]
    end.
    destruct (requires_grad xt); [|done].
    unfold Py.bind, Py.lift.
    destruct axes as [ax|]; simpl;
      [destruct (transpose grad_output (Some (Z.of_nat <$> argsort ax)))
      |destruct (transpose grad_output None)]; done.
  - intros xt Hx. unfold Transpose_backward. rewrite Hx.
    match goal with
    | |- context [match ?l with Some _ => _ | None => raise _ end] =>
        destruct l as [axes|]; [|done]
    end.
    destruct (requires_grad xt); [|done].
    split; [done|]. intros key Hkey. unfold Py.bind, Py.lift.
    destruct axes as [ax|]; simpl;
      [destruct (transpose grad_output (Some (Z.of_nat <$> argsort ax)))
      |destruct (transpose grad_output None)]; simpl;
      try done; by rewrite lookup_insert_ne.
Qed.

(** X13. Whether it returns or raises, [Transpose.forward] leaves a
    context whose saved tensors are exactly the tensor it worked on (the
    argument itself if that was a tensor), whose ["axes"] argument is the
    [axes] it was given, and whose other saved arguments are as
    before. *)
Theorem Transpose_forward_saves_first (x : Tensor A + ndarray A)
    (axes : option (list Z)) (s : call_state A) :
  let s' := (Transpose_forward requires_grad_default x axes s).2 in
  exists xt,
    saved_tensors (ctx s') = [xt] /\
    data xt = input_array x /\
    (forall t, x = inl t -> xt = t) /\
    saved_arguments (ctx s') !! "axes" = Some axes /\
    forall name, name <> "axes" ->
      saved_arguments (ctx s') !! name = saved_arguments (ctx s) !! name.
Proof.
  cbv zeta. rewrite Transpose_forward_run.
  exists (input_tensor requires_grad_default x s).
  assert (Hctx : forall r (n m : Z),
    ctx (match r : result (ndarray A) with
         | Ok t => (Ok (mk_Tensor t None requires_grad_default n),
                    mk_call_state
                      (forward_ctx (input_tensor requires_grad_default x s)
                         axes (ctx s)) m)
         | Raise e =>
             (Raise e,
              mk_call_state
                (forward_ctx (input_tensor requires_grad_default x s)
                   axes (ctx s)) n)
         end).2
    = forward_ctx (input_tensor requires_grad_default x s) axes (ctx s))
    by (by intros [] ? ?).
  rewrite Hctx.
  split; [reflexivity|]. split; [apply data_input_tensor|].
  split; [by intros t ->|]. split; [apply forward_ctx_axes|].
  intros name Hname. unfold forward_ctx. cbn [saved_arguments].
  rewrite lookup_union_r; [done|]. by apply lookup_singleton_ne.
Qed.

End Forward.

Section Compare.
Variable requires_grad_default : bool.

(** What a [Compare._compare] call returns and leaves. *)
Lemma Compare__compare_run
    (op : ndarray float -> ndarray float -> result (ndarray bool))
    (x1 x2 : Tensor float + ndarray float) (s : call_state float) :
  let n := (fresh s + wrapped x1 + wrapped x2)%Z in
  Compare__compare requires_grad_default op x1 x2 s
  = match op (input_array x1) (input_array x2) with
    | Ok r => (Ok (mk_Tensor r None requires_grad_default n),
               mk_call_state (ctx s) (n + 1)%Z)
    | Raise e => (Raise e, mk_call_state (ctx s) n)
    end.
Proof.
  cbv zeta. unfold Compare__compare, Py.bind, Py.lift.
  destruct s as [c f].
  destruct x1 as [t1|a1], x2 as [t2|a2]; simpl;
    rewrite ?Z.add_0_r;
    match goal with |- context [op ?a ?b] => destruct (op a b) end;
    reflexivity.
Qed.

Lemma forward_of_run (c : comparison)
    (x1 x2 : Tensor float + ndarray float) (s : call_state float) :
  let n := (fresh s + wrapped x1 + wrapped x2)%Z in
  forward_of requires_grad_default c x1 x2 s
  = match ufunc2 (compares c) (input_array x1) (input_array x2) with
    | Ok r => (Ok (mk_Tensor r None requires_grad_default n),
               mk_call_state (ctx s) (n + 1)%Z)
    | Raise e => (Raise e, mk_call_state (ctx s) n)
    end.
Proof. destruct c; apply Compare__compare_run. Qed.

Lemma broadcast_strides_rev_nil (sh : list nat) :
  is_Some (broadcast_strides_rev [] [] sh).
Proof.
  induction sh as [|n sh [r IH]]; simpl; [by eexists|].
  rewrite IH. by eexists.
Qed.

Lemma broadcast_strides_rev_l (s1 s2 r st : list nat) :
  broadcast_shapes_rev s1 s2 = Some r -> length st = length s1 ->
  is_Some (broadcast_strides_rev s1 st r).
Proof.
  revert s2 r st. induction s1 as [|a s1 IH]; intros s2 r st Hr Hst.
  - destruct st; [|done]. apply broadcast_strides_rev_nil.
  - destruct st as [|x st]; [done|]. simpl in Hst.
    destruct s2 as [|b s2]; simpl in Hr.
    + injection Hr as <-. rewrite broadcast_strides_rev_id by (simpl; lia).
      by eexists.
    + destruct (broadcast_shapes_rev s1 s2) as [r'|] eqn:Hr'; [|done].
      simpl in Hr.
      destruct (IH s2 r' st Hr' ltac:(lia)) as [q Hq].
      destruct (decide (a = b)) as [->|Hab]; [injection Hr as <-|].
      { simpl. rewrite Hq. simpl. rewrite decide_True by done.
        by eexists. }
      destruct (decide (a = 1)) as [->|Ha1]; [injection Hr as <-|].
      { cbn [broadcast_strides_rev]. rewrite Hq. cbn [mbind option_bind].
        rewrite decide_False, decide_True by done. by eexists. }
      destruct (decide (b = 1)) as [->|Hb1]; [injection Hr as <-|done].
      simpl. rewrite Hq. simpl. rewrite decide_True by done. by eexists.
Qed.

Lemma broadcast_strides_rev_r (s1 s2 r st : list nat) :
  broadcast_shapes_rev s1 s2 = Some r -> length st = length s2 ->
  is_Some (broadcast_strides_rev s2 st r).
Proof.
  revert s2 r st. induction s1 as [|a s1 IH]; intros s2 r st Hr Hst.
  - assert (r = s2) as -> by (destruct s2; simpl in Hr; congruence).
    rewrite broadcast_strides_rev_id by done. by eexists.
  - destruct s2 as [|b s2]; simpl in Hr.
    + destruct st; [|done]. apply broadcast_strides_rev_nil.
    + destruct st as [|x st]; [done|]. simpl in Hst.
      destruct (broadcast_shapes_rev s1 s2) as [r'|] eqn:Hr'; [|done].
      simpl in Hr.
      destruct (IH s2 r' st Hr' ltac:(lia)) as [q Hq].
      destruct (decide (a = b)) as [->|Hab]; [injection Hr as <-|].
      { simpl. rewrite Hq. simpl. rewrite decide_True by done.
        by eexists. }
      destruct (decide (a = 1)) as [->|Ha1]; [injection Hr as <-|].
      { simpl. rewrite Hq. simpl. rewrite decide_True by done.
        by eexists. }
      destruct (decide (b = 1)) as [->|Hb1]; [injection Hr as <-|done].
      cbn [broadcast_strides_rev]. rewrite Hq. cbn [mbind option_bind].
      rewrite decide_False, decide_True by done. by eexists.
Qed.

Lemma ufunc2_broadcasts {B} (f : float -> float -> B)
    (a b : ndarray float) :
  match broadcast_shapes (np.shape a) (np.shape b) with
  | Some sh =>
      exists r, ufunc2 f a b = Ok r /\ np.shape r = sh /\ wf r
  | None =>
      ufunc2 f a b
      = Raise (ValueError "operands could not be broadcast together")
  end.
Proof.
  unfold ufunc2, broadcast_shapes.
  destruct (broadcast_shapes_rev (reverse (np.shape a))
              (reverse (np.shape b))) as [r|] eqn:Hr; simpl; [|done].
  unfold broadcast_to, broadcast_strides. rewrite reverse_involutive.
  destruct (broadcast_strides_rev_l _ _ _ (reverse (strides (np.shape a)))
              Hr) as [q1 ->].
  { by rewrite !length_reverse, length_strides. }
  destruct (broadcast_strides_rev_r _ _ _ (reverse (strides (np.shape b)))
              Hr) as [q2 ->].
  { by rewrite !length_reverse, length_strides. }
  simpl. eexists. split; [reflexivity|]. split; [reflexivity|].
  unfold wf. simpl. rewrite length_zip_with, !length_as_strided. lia.
Qed.

(** X14. A forward call of each of the six comparisons leaves the
    context untouched.  It returns a well-formed tensor of the common
    shape of its operands whenever their shapes can be broadcast
    together, and raises [ValueError] whenever they cannot. *)
Theorem comparison_forward_broadcasts (c : comparison)
    (x1 x2 : Tensor float + ndarray float) (s : call_state float) :
  let r := forward_of requires_grad_default c x1 x2 s in
  ctx r.2 = ctx s /\
  match broadcast_shapes (np.shape (input_array x1))
          (np.shape (input_array x2)) with
  | Some sh => exists out, r.1 = Ok out /\ core.shape out = sh /\ wf (data out)
  | None =>
      r.1 = Raise (ValueError "operands could not be broadcast together")
  end.
Proof.
  cbv zeta. rewrite forward_of_run.
  pose proof (ufunc2_broadcasts (compares c) (input_array x1)
                (input_array x2)) as Hb.
  destruct (broadcast_shapes _ _) as [sh|].
  - destruct Hb as (r & -> & Hsh & Hwf). split; [done|]. by eexists.
  - by rewrite Hb.
Qed.

(** X15. On well-formed operands of one shape, a forward call of each of
    the six comparisons returns a tensor of that shape whose element at
    every index is the comparison of the operands' elements there:
    greater, greater or equal, less, less or equal, equal, not equal,
    the first operand on the left. *)
Theorem comparison_forward_elements (c : comparison)
    (x1 x2 : Tensor float + ndarray float) (s : call_state float) :
  wf (input_array x1) -> wf (input_array x2) ->
  np.shape (input_array x2) = np.shape (input_array x1) ->
  exists out s',
    forward_of requires_grad_default c x1 x2 s = (Ok out, s') /\
    core.shape out = np.shape (input_array x1) /\
    forall idx, in_range idx (np.shape (input_array x1)) ->
      item (data out) idx
      = compares c (item (input_array x1) idx) (item (input_array x2) idx).
Proof.
  intros Hwf1 Hwf2 Hsh. rewrite forward_of_run.
  rewrite (ufunc2_same_shape _ _ _ Hwf1 Hwf2 Hsh).
  eexists _, _. split; [reflexivity|]. split; [reflexivity|].
  intros idx Hidx. cbn [data]. by apply item_zip_with.
Qed.

Lemma fmap_zip_with_compose {B C D E} (g : D -> E) (f : B -> C -> D)
    (l : list B) (k : list C) :
  zip_with (fun x y => g (f x y)) l k = g <$> zip_with f l k.
Proof.
  revert k. induction l as [|x l IH]; intros [|y k]; simpl; [done..|].
  by rewrite IH.
Qed.

Lemma ufunc2_compose {B C} (g : B -> C) (f : float -> float -> B)
    (a b : ndarray float) :
  ufunc2 (fun x y => g (f x y)) a b
  = match ufunc2 f a b with
    | Ok r => Ok (map_array g r)
    | Raise e => Raise e
    end.
Proof.
  unfold ufunc2. destruct (broadcast_shapes _ _) as [sh|]; [|done].
  destruct (broadcast_to a sh) as [a'|]; simpl; [|done].
  destruct (broadcast_to b sh) as [b'|]; simpl; [|done].
  unfold map_array. simpl. by rewrite fmap_zip_with_compose.
Qed.

(** X16. On all operands, [NotEqual.forward] raises what [Equal.forward]
    raises and otherwise returns the tensor [Equal.forward] returns with
    every element negated; both leave the same state. *)
Theorem NotEqual_negates_Equal
    (x1 x2 : Tensor float + ndarray float) (s : call_state float) :
  let e := Equal_forward requires_grad_default x1 x2 s in
  let n := NotEqual_forward requires_grad_default x1 x2 s in
  n.2 = e.2 /\
  n.1 = match e.1 with
        | Ok out => Ok (set_data out (map_array negb (data out)))
        | Raise err => Raise err
        end.
Proof.
  cbv zeta. unfold Equal_forward, NotEqual_forward.
  rewrite !Compare__compare_run. unfold not_equal, equal.
  rewrite (ufunc2_compose negb PrimFloat.eqb).
  by destruct (ufunc2 PrimFloat.eqb _ _).
Qed.

End Compare.

Lemma Transpose_forward_elements_witness :
  exists out s',
    Transpose_forward false (inl (tensor_2x3 true)) (Some [-1; 0]%Z)
      empty_state = (Ok out, s') /\
    core.shape out = [3; 2] /\
    forall idx, in_range idx [2; 3] ->
      item (data out) ((fun k => idx !!! k) <$> [1; 0]) = item matrix_2x3 idx.
Proof.
  apply (Transpose_forward_elements false (inl (tensor_2x3 true))
           (Some [-1; 0]%Z) empty_state).
  split.
  - repeat (apply List.Forall_cons; [by vm_compute|]).
    apply List.Forall_nil.
  - simpl. apply Permutation_swap.
Defined.

Lemma Transpose_forward_then_backward_witness :
  exists out s' xt,
    Transpose_forward false (inl (tensor_2x3 true)) (Some [1; 0]%Z)
      empty_state = (Ok out, s') /\
    saved_tensors (ctx s') = [xt] /\
    data xt = matrix_2x3 /\
    forall grad_dict,
      Transpose_backward (ctx s') (data out) grad_dict
      = (Ok tt,
         if requires_grad xt
         then <[py_id xt := matrix_2x3]> grad_dict
         else grad_dict).
Proof.
  apply (Transpose_forward_then_backward false (inl (tensor_2x3 true))
           (Some [1; 0]%Z) empty_state).
  - reflexivity.
  - split; [reflexivity|]. simpl. apply Permutation_swap.
Defined.

Lemma Transpose_gradient_has_input_shape_witness :
  exists out s',
    Transpose_forward false (inl (tensor_2x3 true)) (Some [1; 0]%Z)
      empty_state = (Ok out, s') /\
    forall grad_output grad_dict,
      np.shape grad_output = core.shape out ->
      exists g,
        Transpose_backward (ctx s') grad_output grad_dict
        = (Ok tt, <[7%Z := g]> grad_dict) /\
        np.shape g = [2; 3].
Proof.
  apply (Transpose_gradient_has_input_shape false (tensor_2x3 true)
           (Some [1; 0]%Z) empty_state).
  - split; [reflexivity|]. simpl. apply Permutation_swap.
  - reflexivity.
Defined.

Lemma comparison_forward_elements_witness :
  exists out s',
    forward_of false Greater (inl (tensor_2x3 true)) (inr matrix_2x3)
      empty_state = (Ok out, s') /\
    core.shape out = [2; 3] /\
    forall idx, in_range idx [2; 3] ->
      item (data out) idx
      = compares Greater (item matrix_2x3 idx) (item matrix_2x3 idx).
Proof.
  apply (comparison_forward_elements false Greater (inl (tensor_2x3 true))
           (inr matrix_2x3) empty_state); reflexivity.
Defined.

End matrix_more.

(** ** Checkpoints and state dicts *)

Module serialization_more.
Import Py np np_facts core serialization serialization_terms
  serialization_more_terms.

Lemma foldl_assign_data_lookup (name : string)
    (l : list (string * option (Tensor float))) (sd : state_dict) :
  foldl assign_data sd l !! name = foldl (assigned_step name) (sd !! name) l.
Proof.
  revert sd. induction l as [|[k v] l IH]; intros sd; [done|].
  cbn [foldl]. rewrite IH. f_equal.
  unfold assign_data, assigned_step. cbn [fst snd].
  destruct v as [t|].
  - destruct (decide (k = name)) as [->|Hk].
    + apply (lookup_insert_eq (M := gmap string)).
    + by apply (lookup_insert_ne (M := gmap string)).
  - by destruct (decide (k = name)).
Qed.

Lemma foldl_assigned_step (name : string)
    (l : list (string * option (Tensor float)))
    (found : option (ndarray float)) :
  foldl (assigned_step name) found l
  = match last_assigned name l with
    | Some a => Some a
    | None => found
    end.
Proof.
  unfold last_assigned. revert found.
  induction l as [|e l IH] using rev_ind; intros found; [done|].
  rewrite !foldl_app. cbn [foldl]. unfold assigned_step at 1 3.
  destruct (decide (e.1 = name)); [|apply IH].
  destruct (e.2); [done|apply IH].
Qed.

(** X17. The state dict [get_state_dict] returns holds, under every name,
    the array of the last of the model's own buffers of that name that is
    not [None], and when there is none the array of the last of the
    parameters [named_parameters] yields under that name that is not
    [None]: a buffer hides a parameter of its name, and names that only
    [None] entries carry are absent. *)
Theorem get_state_dict_lookup (model : Module) (name : string) :
  get_state_dict model !! name
  = match last_assigned name (_buffers model) with
    | Some a => Some a
    | None => last_assigned name (named_parameters model)
    end.
Proof.
  unfold get_state_dict.
  rewrite foldl_assign_data_lookup, foldl_assigned_step.
  rewrite foldl_assign_data_lookup. unfold state_dict.
  by rewrite lookup_empty.
Qed.

Section Load.
Context {Optimizer OptState : Type}.
Variable optimizer_load_state_dict :
  Optimizer -> OptState -> result Optimizer.
Variable truthy : OptState -> bool.
Variable Module_load_state_dict : Module -> state_dict -> result Module.

(** X18. [load_checkpoint] never changes the files, and on a path at
    which there is no file it raises [FileNotFoundError] and leaves the
    model and the optimizer as they were. *)
Theorem load_checkpoint_missing_file (path : string)
    (w : @world Optimizer OptState) :
  files (load_checkpoint optimizer_load_state_dict truthy
     Module_load_state_dict path w).2 = files w /\
  (files w !! path = None ->
   load_checkpoint optimizer_load_state_dict truthy
     Module_load_state_dict path w = (Raise (FileNotFoundError path), w)).
Proof.
  unfold load_checkpoint, pickle_load, model_load_state_dict,
    optimizer_load, Py.bind, Py.get, Py.ret.
  split.
  - destruct (files w !! path) as [[c|o]|]; simpl; [|done..].
    destruct (Module_load_state_dict _ _) as [m'|e]; simpl; [|done].
    destruct (optimizer w) as [o|]; simpl; [|done].
    destruct (optimizer_state_dict_entry c) as [sd|]; simpl; [|done].
    destruct (truthy sd); simpl; [|done].
    by destruct (optimizer_load_state_dict o sd).
  - by intros ->.
Qed.



End Load.





End serialization_more.

(** ** The files of [save_state_dict] and [load_state_dict] *)

Module state_dict_files_facts.
Import Strings.Ascii Py pathlib state_dict_files.

Lemma rfind_last (c : ascii) (pre t : str) :
  c ∉ t -> rfind c (pre ++ c :: t) = Some (length pre).
Proof.
  intros Ht.
  assert (Hnone : forall u, c ∉ u -> rfind c u = None).
  { induction u as [|x u IH]; [done|]. intros Hu. simpl.
    rewrite IH by (intros ?; apply Hu; by right).
    rewrite decide_False; [done|]. intros ->. apply Hu. by left. }
  induction pre as [|x pre IH]; simpl.
  - rewrite (Hnone t Ht). by rewrite decide_True.
  - by rewrite IH.
Qed.

Lemma rfind_Some (c : ascii) (s : str) (i : nat) :
  rfind c s = Some i ->
  s = take i s ++ c :: drop (S i) s /\ i < length s /\ c ∉ drop (S i) s.
Proof.
  assert (Hnone : forall u, rfind c u = None -> c ∉ u).
  { induction u as [|x u IH]; simpl; [intros _; apply not_elem_of_nil|].
    destruct (rfind c u); [done|].
    destruct (decide (x = c)); [done|]. intros _.
    apply not_elem_of_cons. split; [done|by apply IH]. }
  revert i. induction s as [|x s IH]; intros i; simpl; [done|].
  destruct (rfind c s) as [j|] eqn:Hj.
  - intros [= <-]. destruct (IH j eq_refl) as (Heq & Hlt & Hnot).
    simpl. split; [by rewrite <- Heq|]. split; [lia|done].
  - destruct (decide (x = c)) as [->|]; [|done]. intros [= <-].
    simpl. rewrite drop_0. split; [done|]. split; [lia|by apply Hnone].
Qed.

(** The suffix of a name with a last dot that is neither its first nor
    its last character. *)
Lemma Path_suffix_ext (p : Path) (stem ext : str) :
  name p = stem ++ ("."%char :: ext) -> stem <> [] -> ext <> [] ->
  "."%char ∉ ext ->
  Path_suffix p = "."%char :: ext.
Proof.
  intros Hname Hstem Hext Hdot. unfold Path_suffix.
  rewrite Hname, (rfind_last _ _ _ Hdot).
  rewrite length_app. simpl.
  assert (0 < length stem) by (destruct stem; [done|simpl; lia]).
  assert (0 < length ext) by (destruct ext; [done|simpl; lia]).
  rewrite (proj2 (Nat.ltb_lt 0 (length stem))) by done.
  rewrite (proj2 (Nat.ltb_lt (length stem) _)) by lia.
  simpl. by rewrite drop_app_length.
Qed.

Lemma Path_suffix_inv (p : Path) :
  Path_suffix p = [] \/
  exists stem ext,
    name p = stem ++ ("."%char :: ext) /\ stem <> [] /\ ext <> [] /\
    ("."%char ∉ ext) /\ Path_suffix p = "."%char :: ext.
Proof.
  unfold Path_suffix.
  destruct (rfind "." (name p)) as [i|] eqn:Hi; [|by left].
  destruct (rfind_Some _ _ _ Hi) as (Heq & Hlt & Hnot).
  destruct (0 <? i) eqn:H0; [|by left].
  destruct (i <? length (name p) - 1) eqn:H1; [|by left].
  apply Nat.ltb_lt in H0. apply Nat.ltb_lt in H1. right. simpl.
  exists (take i (name p)), (drop (S i) (name p)).
  split; [done|]. split.
  { intros Hnil. apply (f_equal length) in Hnil.
    rewrite length_take in Hnil. simpl in Hnil. lia. }
  split.
  { intros Hnil. apply (f_equal length) in Hnil.
    rewrite length_drop in Hnil. simpl in Hnil. lia. }
  split; [done|].
  rewrite Heq at 1. rewrite drop_app_length'; [done|].
  rewrite length_take. lia.
Qed.

Lemma endswith_true (s t : str) :
  endswith s t = true <-> exists k, s = k ++ t.
Proof. unfold endswith. rewrite bool_decide_eq_true. reflexivity. Qed.

(** Whether the path ends with [".npz"] is decided by its final
    component. *)
Lemma endswith_fspath (p : Path) :
  is_path p ->
  endswith (fspath p) (chars ".npz") = endswith (name p) (chars ".npz").
Proof.
  intros (Hdir & Hname & _). unfold fspath.
  apply eq_true_iff_eq. rewrite !endswith_true. split.
  - intros [k Hk]. apply (f_equal reverse) in Hk.
    rewrite !reverse_app in Hk.
    assert (Hrn : reverse (name p) <> []).
    { intros Hnil. apply (f_equal reverse) in Hnil.
      by rewrite reverse_involutive in Hnil. }
    assert (Hrd : reverse (directory p) = [] \/
                  exists d, reverse (directory p) = "/"%char :: d).
    { destruct Hdir as [->|Hd]; [by left|]. right.
      apply endswith_true in Hd as [d ->].
      exists (reverse d). by rewrite reverse_app. }
    change (reverse (chars ".npz")) with (chars "zpn.") in Hk.
    destruct (reverse (name p)) as [|a [|b [|c [|d r]]]] eqn:Hr; [done|..].
    + destruct Hrd as [Hd|[d Hd]]; rewrite Hd in Hk; discriminate.
    + destruct Hrd as [Hd|[d Hd]]; rewrite Hd in Hk; discriminate.
    + destruct Hrd as [Hd|[d Hd]]; rewrite Hd in Hk; discriminate.
    + injection Hk as -> -> -> -> _.
      exists (reverse r). apply (f_equal reverse) in Hr.
      rewrite reverse_involutive in Hr. rewrite Hr.
      rewrite !reverse_cons, <- !app_assoc. reflexivity.
  - intros [k ->]. exists (directory p ++ k). by rewrite <- app_assoc.
Qed.

(** A name ends with [".npz"] exactly when it is [".npz"] or has that
    suffix. *)
Lemma endswith_npz (p : Path) :
  endswith (name p) (chars ".npz") = true <->
  name p = chars ".npz" \/ Path_suffix p = chars ".npz".
Proof.
  rewrite endswith_true. split.
  - intros [k Hk]. destruct k as [|x k]; [by left|]. right.
    by apply (Path_suffix_ext p (x :: k) (chars "npz")); [|done|done|
      intros Hin; repeat (apply elem_of_cons in Hin as [|Hin]; [done|]);
      by apply elem_of_nil in Hin].
  - intros [->|Hs]; [by exists []|].
    destruct (Path_suffix_inv p) as [Hnil|(stem & ext & Hname & _ & _ & _ & He)].
    + by rewrite Hnil in Hs.
    + exists stem. rewrite Hname. f_equal. by rewrite <- Hs, He.
Qed.

(** X22. For a path with a final component, the file
    [ModelSaver.load_state_dict] reads is the file
    [ModelSaver.save_state_dict] wrote for the same path exactly when the
    path has the suffix [".npz"], or has no suffix and is not named
    [".npz"]: for a path with any other suffix, and for one named
    [".npz"], the two calls disagree on the file. *)
Theorem state_dict_file_round_trip (path : Path) :
  is_path path ->
  load_state_dict_file path = Ok (save_state_dict_file path) <->
  Path_suffix path = chars ".npz" \/
  (Path_suffix path = [] /\ name path <> chars ".npz").
Proof.
  intros Hpath.
  pose proof (endswith_fspath path Hpath) as Hends.
  pose proof (endswith_npz path) as Hnpz.
  destruct Hpath as (Hdir & Hname & Hsep).
  unfold load_state_dict_file, save_state_dict_file, savez_file.
  rewrite Hends.
  destruct (decide (Path_suffix path = chars ".npz")) as [Hs|Hs].
  - rewrite bool_decide_eq_false_2 by (by intros ?). cbn [rbind].
    rewrite (proj2 Hnpz) by (by right). split; [by left|done].
  - rewrite bool_decide_eq_true_2 by done.
    unfold Path_with_suffix.
    rewrite bool_decide_eq_false_2
      by (intros Hin; repeat (apply elem_of_cons in Hin as [|Hin]; [done|]);
          by apply elem_of_nil in Hin).
    change ((bool_decide (chars ".npz" <> [])
             && negb (startswith (chars ".npz") (chars "."))
             || bool_decide (chars ".npz" = chars "."))%bool) with false.
    cbv iota. rewrite bool_decide_eq_false_2 by done. cbv zeta.
    destruct (Path_suffix_inv path)
      as [Hnil|(stem & ext & Hn & Hstem & Hext & Hdot & He)].
    + rewrite Hnil. rewrite bool_decide_eq_true_2 by done.
      cbn [rbind]. unfold fspath. cbn [directory name].
      destruct (endswith (name path) (chars ".npz")) eqn:Hend.
      * destruct (proj1 Hnpz eq_refl) as [Hend'|Hend']; [|done].
        split.
        -- intros [= Heq]. apply (f_equal length) in Heq.
           rewrite !length_app in Heq. simpl in Heq. lia.
        -- intros [?|[_ ?]]; done.
      * split; [|by rewrite app_assoc]. intros _. right. split; [done|].
        intros Heq. assert (false = true) by (apply Hnpz; by left).
        done.
    + rewrite He. rewrite bool_decide_eq_false_2 by done.
      cbn [rbind]. unfold fspath. cbn [directory name].
      assert (Hend : endswith (name path) (chars ".npz") = false).
      { destruct (endswith (name path) (chars ".npz")) eqn:Hend'; [|done].
        destruct (proj1 Hnpz eq_refl) as [Hend|Hend]; [|done].
        assert (Hrf := rfind_last "."%char stem ext Hdot).
        rewrite <- Hn, Hend in Hrf. injection Hrf as Hlen.
        destruct stem; [done|discriminate]. }
      rewrite Hend. split.
      * intros [= Heq]. apply (f_equal length) in Heq.
        rewrite Hn in Heq. rewrite !length_app in Heq.
        rewrite length_take, !length_app in Heq. simpl in Heq.
        destruct ext; [done|]. simpl in Heq. lia.
      * intros [Heq|[Hnil _]]; [by rewrite <- He in Heq|done].
Qed.

Lemma state_dict_file_round_trip_witness :
  load_state_dict_file (mk_Path (chars "runs/") (chars "model"))
  = Ok (save_state_dict_file (mk_Path (chars "runs/") (chars "model")))
  <-> Path_suffix (mk_Path (chars "runs/") (chars "model")) = chars ".npz" \/
      (Path_suffix (mk_Path (chars "runs/") (chars "model")) = [] /\
       name (mk_Path (chars "runs/") (chars "model")) <> chars ".npz").
Proof.
  apply (state_dict_file_round_trip
           (mk_Path (chars "runs/") (chars "model"))).
  split; [right; reflexivity|]. split; [done|].
  intros Hin. repeat (apply elem_of_cons in Hin as [|Hin]; [done|]).
  by apply elem_of_nil in Hin.
Defined.

(** X23. For a path whose final component is a stem, a dot and an
    extension other than [npz], [ModelSaver.save_state_dict] writes the
    file of that name with [".npz"] appended, and
    [ModelSaver.load_state_dict] reads the file named by the stem and
    [".npz"]: after saving to [model.pt] the arrays are in
    [model.pt.npz], and loading from [model.pt] looks for
    [model.npz]. *)
Theorem state_dict_file_other_suffix (path : Path) (stem ext : str) :
  is_path path ->
  name path = stem ++ ("."%char :: ext) ->
  stem <> [] -> ext <> [] -> ("."%char ∉ ext) -> ext <> chars "npz" ->
  save_state_dict_file path
  = directory path ++ stem ++ ("."%char :: ext) ++ chars ".npz" /\
  load_state_dict_file path = Ok (directory path ++ stem ++ chars ".npz").
Proof.
  intros Hpath Hn Hstem Hext Hdot Hnpz.
  pose proof (Path_suffix_ext path stem ext Hn Hstem Hext Hdot) as Hs.
  assert (Hne : Path_suffix path <> chars ".npz").
  { rewrite Hs. intros [= Heq]. by apply Hnpz. }
  split.
  - unfold save_state_dict_file, savez_file.
    rewrite (endswith_fspath path Hpath).
    destruct (endswith (name path) (chars ".npz")) eqn:Hend.
    + apply endswith_npz in Hend as [Hend|Hend]; [|done].
      assert (Hrf := rfind_last "."%char stem ext Hdot).
      rewrite <- Hn, Hend in Hrf. injection Hrf as Hlen.
      destruct stem; [done|discriminate].
    + unfold fspath. rewrite Hn. by rewrite <- !app_assoc.
  - unfold load_state_dict_file.
    rewrite bool_decide_eq_true_2 by done.
    unfold Path_with_suffix.
    rewrite bool_decide_eq_false_2
      by (intros Hin; repeat (apply elem_of_cons in Hin as [|Hin]; [done|]);
          by apply elem_of_nil in Hin).
    change ((bool_decide (chars ".npz" <> [])
             && negb (startswith (chars ".npz") (chars "."))
             || bool_decide (chars ".npz" = chars "."))%bool) with false.
    cbv iota.
    rewrite bool_decide_eq_false_2 by (destruct Hpath as (_ & ? & _); done).
    cbv zeta. rewrite Hs. rewrite bool_decide_eq_false_2 by done.
    cbn [rbind]. unfold fspath. cbn [directory name].
    rewrite Hn, length_app. cbn [length].
    replace (length stem + S (length ext) - S (length ext))
      with (length stem) by lia.
    by rewrite take_app_length.
Qed.

Lemma state_dict_file_other_suffix_witness :
  save_state_dict_file (mk_Path [] (chars "model.pt")) = chars "model.pt.npz" /\
  load_state_dict_file (mk_Path [] (chars "model.pt"))
  = Ok (chars "model.npz").
Proof.
  apply (state_dict_file_other_suffix (mk_Path [] (chars "model.pt"))
           (chars "model") (chars "pt")).
  - split; [by left|]. split; [done|].
    intros Hin. repeat (apply elem_of_cons in Hin as [|Hin]; [done|]).
    by apply elem_of_nil in Hin.
  - reflexivity.
  - done.
  - done.
  - intros Hin. repeat (apply elem_of_cons in Hin as [|Hin]; [done|]).
    by apply elem_of_nil in Hin.
  - done.
Defined.

End state_dict_files_facts.
